(** * The sequential task-queue daemon: queue, executor, processing loop

    A shallow embedding of [scripts/monitor_daemon.py] and
    [scripts/task_executor.py].

    The Python code is stateful and raises exceptions, so every method is
    a computation in a small state-and-exception monad over one [State]
    record.  The record holds the attributes of the daemon's objects
    (the [TaskQueue] fields, [MonitorDaemon.running]), the asyncio
    run-time state the code relies on (callbacks handed to the loop by the
    watcher thread, the await at which [_process_queue] is suspended) and
    the outside world: the [tasks/] and [results/] directories, the file
    [state/queue_state.json], and the chronological trace of effects
    (log records, file writes, agent calls).

    What the environment decides is read from an oracle [Env]: the value of
    each [datetime.now()], the behaviour of each [query(...)] call of the
    agent SDK, whether each [open(STATE_FILE, 'w')] succeeds, and whether
    the result file can be opened at the end of the [try] block of
    [execute_task].

    What the model takes for granted:
    - the [_save_result] call in the [except] handler of [execute_task],
      which no handler surrounds, succeeds; the one inside the [try] block
      can raise, and when an [open] raises nothing is written;
    - a run of the agent is finite;
    - the interpreter is Python 3.11 or later, where
      [asyncio.TimeoutError] is the builtin [TimeoutError]: the clause
      [except asyncio.TimeoutError] of the loop catches the timeout of
      [wait_for] and also a [TimeoutError] that [open] raises in a
      [_save_state] of the loop body; exceptions are told apart by the name
      of their class, and what is raised is an [Exception];
    - the coroutine [_process_queue] runs from one of its awaits to the
      next without interruption, which is how asyncio runs it; the awaited
      [execute_task] is run in one piece, since what may interleave with
      it (a [put] handed over by the watcher) touches the queue and the
      state file only, which [execute_task] neither reads nor writes. *)

From Stdlib Require Import ZArith Lia Bool Ascii String Sorted.
From stdpp Require Import base option list strings gmap pretty.

Local Open Scope string_scope.
Local Open Scope list_scope.

(** ** Strings and paths *)

(** The Python literal ["\n"]. *)
Definition nl : string := String (Ascii.ascii_of_nat 10) EmptyString.

(** [sep.join(parts)]. *)
Fixpoint join (sep : string) (parts : list string) : string :=
  match parts with
  | [] => ""
  | [p] => p
  | p :: rest => p +:+ sep +:+ join sep rest
  end.

(** [name.rfind('.')], counted from offset [i]. *)
Fixpoint rfind_dot (name : string) (i : nat) : option nat :=
  match name with
  | EmptyString => None
  | String c rest =>
      match rfind_dot rest (S i) with
      | Some j => Some j
      | None => if Ascii.eqb c "."%char then Some i else None
      end
  end.

(** [Path(name).stem] for a bare file name (the watcher hands over
    [file_path.name]): the name up to its last dot, unless that dot is the
    first or the last character. *)
Definition stem (name : string) : string :=
  match rfind_dot name 0 with
  | Some i =>
      if (0 <? i)%nat && (i <? String.length name - 1)%nat
      then String.substring 0 i name
      else name
  | None => name
  end.

(** [s.endswith(suffix)]. *)
Definition endswith (s suffix : string) : bool :=
  let n := String.length s in
  let k := String.length suffix in
  (k <=? n)%nat && String.eqb (String.substring (n - k) k s) suffix.

(** [Path(name).match("task-*.md")] on a file name: the star matches any
    run of characters, so the name starts with ["task-"], ends with
    [".md"], and the two do not overlap. *)
Definition matches_task_pattern (name : string) : bool :=
  String.prefix "task-" name && endswith name ".md"
  && (8 <=? String.length name)%nat.

(** ** Exceptions *)

(** A raised Python exception, as the code observes it:
    [type(e).__name__] and [str(e)].  Only subclasses of [Exception] are
    modelled; they are what [except Exception] catches. *)
Record exn := Exn { exn_kind : string; exn_msg : string }.

Definition FileNotFoundError (msg : string) : exn := Exn "FileNotFoundError" msg.

(** What [except asyncio.TimeoutError] catches. *)
Definition is_TimeoutError (e : exn) : bool := String.eqb (exn_kind e) "TimeoutError".

(** The result of running a piece of Python: a value or a raised exception. *)
Inductive outcome (A : Type) : Type :=
  | Return (a : A)
  | Raise (e : exn).
Arguments Return {A} a.
Arguments Raise {A} e.

(** ** Data model *)

(** Modelled from the spec: [scripts/models.py] ([TaskStatus], [TaskResult])
    is not among the sources.  The statuses are those of the spec's state
    machine; the executor only ever assigns the last three. *)
Inductive TaskStatus := PENDING | RUNNING | COMPLETED | FAILED.

Definition is_terminal (s : TaskStatus) : bool :=
  match s with
  | COMPLETED | FAILED => true
  | PENDING | RUNNING => false
  end.

(** An opaque value passed through from the agent (usage, cost). *)
Definition payload := string.

(** The dict stored in [result.worker_output]: keys ["summary"] and
    ["raw_output"], and ["usage"], ["cost_usd"] when the message had them. *)
Record WorkerOutput := {
  summary : string;
  raw_output : string;
  usage : option payload;
  cost_usd : option payload
}.

(** Modelled from the spec: the stored attributes of [TaskResult] listed in
    the spec's data model.  Timestamps are integers, readings of the clock.
    The constructor call in [execute_task] passes [task_id], [status],
    [created_at] and [started_at] only, so every other stored attribute
    starts unset ([None]). *)
Record TaskResult := {
  task_id : string;
  status : TaskStatus;
  created_at : Z;
  started_at : Z;
  completed_at : option Z;
  stdout : option string;
  error : option string;
  worker_output : option WorkerOutput
}.

(** Modelled from the spec: the attribute [duration_seconds] of
    [TaskResult], which the spec's data model lists as derived:
    [completed_at - started_at], in the unit of the clock; it has no value
    as long as [completed_at] is unset. *)
Definition duration_seconds (r : TaskResult) : option Z :=
  match completed_at r with
  | Some t => Some (t - started_at r)%Z
  | None => None
  end.

(** [TaskResult(task_id=..., status=..., created_at=..., started_at=...)]. *)
Definition new_TaskResult (id : string) (st : TaskStatus) (created started : Z)
  : TaskResult :=
  {| task_id := id; status := st; created_at := created; started_at := started;
     completed_at := None; stdout := None;
     error := None; worker_output := None |}.

(** Attribute assignments on a [TaskResult] object. *)
Definition set_status (r : TaskResult) (st : TaskStatus) : TaskResult :=
  {| task_id := task_id r; status := st; created_at := created_at r;
     started_at := started_at r; completed_at := completed_at r;
     stdout := stdout r;
     error := error r; worker_output := worker_output r |}.

Definition set_completed_at (r : TaskResult) (t : Z) : TaskResult :=
  {| task_id := task_id r; status := status r; created_at := created_at r;
     started_at := started_at r; completed_at := Some t;
     stdout := stdout r;
     error := error r; worker_output := worker_output r |}.

Definition set_error (r : TaskResult) (e : string) : TaskResult :=
  {| task_id := task_id r; status := status r; created_at := created_at r;
     started_at := started_at r; completed_at := completed_at r;
     stdout := stdout r;
     error := Some e; worker_output := worker_output r |}.

Definition set_worker_output (r : TaskResult) (o : WorkerOutput) : TaskResult :=
  {| task_id := task_id r; status := status r; created_at := created_at r;
     started_at := started_at r; completed_at := completed_at r;
     stdout := stdout r;
     error := error r; worker_output := Some o |}.

(** The dict written to [state/queue_state.json]. *)
Module QueueState.
Record t := {
  queue_size : nat;
  current_task : option string;
  is_processing : bool;
  queued_tasks : list string
}.
End QueueState.

(** ** Messages of the agent call *)

(** A content block; [text = None] when the block has no [text]
    attribute. *)
Record Block := { text : option string }.

(** A message yielded by [query(...)], seen the way [execute_task] looks at
    it: through [hasattr].  [subtype], [usage], [total_cost_usd] and
    [content] are [None] when the object has no such attribute.
    [result] is the value of [message.result] ([None] for Python's [None]);
    it is read only on messages whose subtype is ["success"] or ["error"],
    the SDK's result messages, which always define it. *)
Module Message.
Record t := {
  subtype : option string;
  result : option string;
  usage : option payload;
  total_cost_usd : option payload;
  content : option (list Block)
}.
End Message.

(** One run of the async generator [query(prompt, options)]: the messages
    it yields and, when it ends by raising, the exception. *)
Record AgentRun := {
  yielded : list Message.t;
  raised : option exn
}.

(** ** Effects *)

(** The records the code sends to its logger at level INFO or above. *)
Inductive LogRecord :=
  | TaskQueued (task_file : string) (qsize : nat)
  | TaskRetrieved (task_file : string)
  | NewTaskDetected (name : string)
  | TaskQueuedSuccessfully (name : string)
  | QueueProcessorStarted
  | StartingTask (task_file : string) (qsize : nat)
  | TaskCompleted (task_file : string) (st : TaskStatus) (duration : Z)
  | TaskFailed (task_file : string) (e : exn)
  | ErrorProcessingTask (e : exn).

(** Everything the process does to the outside, in order. *)
Inductive Effect :=
  | Log (r : LogRecord)
  | WriteState (st : QueueState.t)
  | WriteResult (id : string) (r : TaskResult)
  | Query (prompt : string).

(** ** The environment *)

Record Env := {
  (** the value of the k-th [datetime.now()] *)
  now : nat -> Z;
  (** the behaviour of the k-th [query(prompt, options)] *)
  query : nat -> string -> AgentRun;
  (** the k-th [open(STATE_FILE, 'w')]: [None] when it succeeds, the
      [OSError] it raises otherwise *)
  open_state_file : nat -> option exn;
  (** the [open(output_file, "w")] of the [_save_result] that ends the
      [try] block of [execute_task], in the execution that makes the k-th
      agent call: [None] when it succeeds, the exception it raises
      otherwise *)
  open_result_file : nat -> option exn
}.

(** ** State *)

(** The await at which the [_process_queue] coroutine is suspended. *)
Inductive Pc :=
  | NotStarted                       (* created, not yet run *)
  | AtWaitFor                        (* await asyncio.wait_for(get_next(), 1.0) *)
  | AtExecute (task_file : string)   (* await self.executor.execute_task(task_file) *)
  | AtSleep                          (* await asyncio.sleep(0.5) *)
  | Finished                         (* left the while loop: running was false *)
  | Crashed (e : exn).               (* an exception left _process_queue *)

Record State := {
  (* TaskQueue *)
  queue : list string;
  current_task : option string;
  is_processing : bool;
  (* MonitorDaemon *)
  running : bool;
  (* the event loop *)
  scheduled : list string;
  pc : Pc;
  (* the file system *)
  tasks : gmap string string;
  results : gmap string TaskResult;
  state_file : option QueueState.t;
  (* the environment's counters and the trace *)
  clock_reads : nat;
  agent_calls : nat;
  state_opens : nat;
  trace : list Effect
}.

(** Field updates of [State]. *)
Definition with_queue (q : list string) (s : State) : State :=
  {| queue := q; current_task := current_task s; is_processing := is_processing s;
     running := running s; scheduled := scheduled s; pc := pc s;
     tasks := tasks s; results := results s; state_file := state_file s;
     clock_reads := clock_reads s; agent_calls := agent_calls s;
     state_opens := state_opens s; trace := trace s |}.

Definition with_flags (cur : option string) (busy : bool) (s : State) : State :=
  {| queue := queue s; current_task := cur; is_processing := busy;
     running := running s; scheduled := scheduled s; pc := pc s;
     tasks := tasks s; results := results s; state_file := state_file s;
     clock_reads := clock_reads s; agent_calls := agent_calls s;
     state_opens := state_opens s; trace := trace s |}.

Definition with_scheduled (l : list string) (s : State) : State :=
  {| queue := queue s; current_task := current_task s; is_processing := is_processing s;
     running := running s; scheduled := l; pc := pc s;
     tasks := tasks s; results := results s; state_file := state_file s;
     clock_reads := clock_reads s; agent_calls := agent_calls s;
     state_opens := state_opens s; trace := trace s |}.

Definition with_pc (p : Pc) (s : State) : State :=
  {| queue := queue s; current_task := current_task s; is_processing := is_processing s;
     running := running s; scheduled := scheduled s; pc := p;
     tasks := tasks s; results := results s; state_file := state_file s;
     clock_reads := clock_reads s; agent_calls := agent_calls s;
     state_opens := state_opens s; trace := trace s |}.

Definition with_tasks (m : gmap string string) (s : State) : State :=
  {| queue := queue s; current_task := current_task s; is_processing := is_processing s;
     running := running s; scheduled := scheduled s; pc := pc s;
     tasks := m; results := results s; state_file := state_file s;
     clock_reads := clock_reads s; agent_calls := agent_calls s;
     state_opens := state_opens s; trace := trace s |}.

Definition with_results (m : gmap string TaskResult) (s : State) : State :=
  {| queue := queue s; current_task := current_task s; is_processing := is_processing s;
     running := running s; scheduled := scheduled s; pc := pc s;
     tasks := tasks s; results := m; state_file := state_file s;
     clock_reads := clock_reads s; agent_calls := agent_calls s;
     state_opens := state_opens s; trace := trace s |}.

Definition with_state_file (f : option QueueState.t) (s : State) : State :=
  {| queue := queue s; current_task := current_task s; is_processing := is_processing s;
     running := running s; scheduled := scheduled s; pc := pc s;
     tasks := tasks s; results := results s; state_file := f;
     clock_reads := clock_reads s; agent_calls := agent_calls s;
     state_opens := state_opens s; trace := trace s |}.

Definition with_counters (c a o : nat) (s : State) : State :=
  {| queue := queue s; current_task := current_task s; is_processing := is_processing s;
     running := running s; scheduled := scheduled s; pc := pc s;
     tasks := tasks s; results := results s; state_file := state_file s;
     clock_reads := c; agent_calls := a; state_opens := o; trace := trace s |}.

Definition emit (e : Effect) (s : State) : State :=
  {| queue := queue s; current_task := current_task s; is_processing := is_processing s;
     running := running s; scheduled := scheduled s; pc := pc s;
     tasks := tasks s; results := results s; state_file := state_file s;
     clock_reads := clock_reads s; agent_calls := agent_calls s;
     state_opens := state_opens s; trace := trace s ++ [e] |}.

(** ** The monad *)

Definition M (A : Type) : Type := State -> outcome A * State.

Definition ret {A} (a : A) : M A := fun s => (Return a, s).

Definition raise {A} (e : exn) : M A := fun s => (Raise e, s).

Definition bind {A B} (m : M A) (k : A -> M B) : M B :=
  fun s =>
    match m s with
    | (Return a, s') => k a s'
    | (Raise e, s') => (Raise e, s')
    end.

(** [try: m  except Exception as e: handler(e)]. *)
Definition try_except {A} (m : M A) (handler : exn -> M A) : M A :=
  fun s =>
    match m s with
    | (Return a, s') => (Return a, s')
    | (Raise e, s') => handler e s'
    end.

(** A statement run inside a [try] block whose handler works on the
    objects the block has changed: the exception it raises, if any, is
    handed to what follows instead of being propagated. *)
Definition attempt (m : M unit) : M (option exn) :=
  fun s =>
    match m s with
    | (Return _, s') => (Return None, s')
    | (Raise e, s') => (Return (Some e), s')
    end.

(** A statement that only changes the state. *)
Definition modify (f : State -> State) : M unit := fun s => (Return tt, f s).

Definition gets {A} (f : State -> A) : M A := fun s => (Return (f s), s).

#[global] Instance M_ret : MRet M := @ret.
#[global] Instance M_bind : MBind M := fun A B k m => bind m k.

(** [logger.info(...)] / [logger.error(...)]. *)
Definition log (r : LogRecord) : M unit := modify (emit (Log r)).

Module TaskExecutor.
Section WithEnv.
Variable env : Env.

(** The default [tasks_dir] of the daemon, ["./tasks"] as a [Path]. *)
Definition tasks_dir : string := "tasks".

(** [datetime.now()]. *)
Definition datetime_now : M Z :=
  fun s =>
    (Return (now env (clock_reads s)),
     with_counters (S (clock_reads s)) (agent_calls s) (state_opens s) s).

(** Starting the generator [query(prompt=prompt, options=options)]. *)
Definition call_query (prompt : string) : M AgentRun :=
  fun s =>
    (Return (query env (agent_calls s) prompt),
     emit (Query prompt)
       (with_counters (clock_reads s) (S (agent_calls s)) (state_opens s) s)).

(** [_read_task_document]: the content of [tasks_dir / task_file]. *)
Definition _read_task_document (task_file : string) : M string :=
  fun s =>
    match tasks s !! task_file with
    | Some text => (Return text, s)
    | None =>
        (Raise (FileNotFoundError
                  ("Task document not found: " +:+ tasks_dir +:+ "/" +:+ task_file)),
         s)
    end.

(** [_save_result]: open [results/<task_id>.json] for writing and dump the
    result into it, overwriting what was there.  [fault] is what the [open]
    does: [None] when it succeeds, the exception it raises otherwise, in
    which case nothing is written. *)
Definition _save_result (fault : option exn) (r : TaskResult) : M unit :=
  match fault with
  | Some e => raise e
  | None =>
      modify (fun s =>
        emit (WriteResult (task_id r) r)
          (with_results (<[task_id r := r]> (results s)) s))
  end.

(** [x or default] on an optional string. *)
Definition or_default (x : option string) (default : string) : string :=
  match x with
  | Some v => if String.eqb v "" then default else v
  | None => default
  end.

(** The texts of the blocks that have a [text] attribute. *)
Definition block_texts (blocks : list Block) : list string :=
  omap text blocks.

(** The body of the [async for] loop, together with the way the loop
    ends.  The [TaskResult] object and [full_output] are threaded through
    the iterations; the result comes back with [Some e] when the generator
    raised [e], with [None] when the loop ended by [break] or by
    exhaustion. *)
Fixpoint consume (messages : list Message.t) (raised : option exn)
    (full_output : list string) (result : TaskResult)
    : M (TaskResult * option exn) :=
  match messages with
  | [] => ret (result, raised)
  | message :: rest =>
      match Message.subtype message with
      | Some st =>
          if String.eqb st "success" then
            let result := set_status result COMPLETED in
            t ← datetime_now;
            let result := set_completed_at result t in
            let result := set_worker_output result
              {| summary := or_default (Message.result message) "Task completed";
                 raw_output := join nl full_output;
                 usage := Message.usage message;
                 cost_usd := Message.total_cost_usd message |} in
            ret (result, None)
          else if String.eqb st "error" then
            let result := set_status result FAILED in
            t ← datetime_now;
            let result := set_completed_at result t in
            let result := set_error result
              (or_default (Message.result message) "Task failed") in
            ret (result, None)
          else consume rest raised full_output result
      | None =>
          match Message.content message with
          | Some blocks =>
              consume rest raised (full_output ++ block_texts blocks) result
          | None => consume rest raised full_output result
          end
      end
  end.

(** The prompt built from the task document. *)
Definition make_prompt (task_content : string) : string :=
  "/task-coordination" +:+ nl +:+ nl +:+
  "Execute the following task:" +:+ nl +:+ nl +:+
  task_content +:+ nl.

(** [execute_task].  The [try] block is the agent call, the loop over its
    messages and the [_save_result] behind the loop; [exc] is the exception
    that leaves the block, if any: the one the generator raised, or the one
    the write raised.  The handler works on the result object as the block
    left it; its own [_save_result] is the one taken to succeed.  [k] is
    the number of the agent call, by which the environment is asked about
    the [open] of the result file. *)
Definition execute_task (task_file : string) : M TaskResult :=
  let task_id := stem task_file in
  task_content ← _read_task_document task_file;
  created ← datetime_now;
  started ← datetime_now;
  let result := new_TaskResult task_id RUNNING created started in
  let prompt := make_prompt task_content in
  k ← gets agent_calls;
  run ← call_query prompt;
  '(result, exc) ← consume (yielded run) (raised run) [] result;
  exc ← match exc with
        | Some e => ret (Some e)
        | None => attempt (_save_result (open_result_file env k) result)
        end;
  match exc with
  | None => ret result
  | Some e =>
      let result := set_status result FAILED in
      let result := set_error result (exn_kind e +:+ ": " +:+ exn_msg e) in
      t ← datetime_now;
      let result := set_completed_at result t in
      _save_result None result;;
      ret result
  end.

End WithEnv.
End TaskExecutor.

Module TaskQueue.
Section WithEnv.
Variable env : Env.

(** The [size] property: [self.queue.qsize()]. *)
Definition size (s : State) : nat := length (queue s).

(** [_load_state]: the dict in the state file, or the default dict. *)
Definition _load_state : M QueueState.t :=
  gets (fun s =>
    match state_file s with
    | Some st => st
    | None =>
        {| QueueState.queue_size := 0; QueueState.current_task := None;
           QueueState.is_processing := false; QueueState.queued_tasks := [] |}
    end).

Definition get_queued_tasks : M (list string) :=
  st ← _load_state;
  ret (QueueState.queued_tasks st).

(** [_save_state]: build the dict, open the state file for writing
    (which may raise) and dump the dict into it. *)
Definition _save_state : M unit :=
  fun s =>
    let state :=
      {| QueueState.queue_size := length (queue s);
         QueueState.current_task := current_task s;
         QueueState.is_processing := is_processing s;
         QueueState.queued_tasks := [] |} in
    let s' := with_counters (clock_reads s) (agent_calls s) (S (state_opens s)) s in
    match open_state_file env (state_opens s) with
    | Some e => (Raise e, s')
    | None => (Return tt, emit (WriteState state) (with_state_file (Some state) s'))
    end.

(** [put]: the queue is unbounded, so [await self.queue.put(...)] never
    suspends. *)
Definition put (task_file : string) : M unit :=
  modify (fun s => with_queue (queue s ++ [task_file]) s);;
  n ← gets size;
  log (TaskQueued task_file n);;
  _save_state.

(** [await self.queue.get()]: the head of the queue; [None] when the
    queue is empty and the await stays suspended. *)
Definition queue_get : M (option string) :=
  fun s =>
    match queue s with
    | [] => (Return None, s)
    | task :: rest => (Return (Some task), with_queue rest s)
    end.

(** [get_next]; [None] when it is still suspended in [queue.get()]. *)
Definition get_next : M (option string) :=
  got ← queue_get;
  match got with
  | None => ret None
  | Some task =>
      log (TaskRetrieved task);;
      _save_state;;
      ret (Some task)
  end.

End WithEnv.
End TaskQueue.

Module TaskFileHandler.

(** [on_created], called on the watcher's thread with the event's
    [is_directory] and the file name of its [src_path].
    [run_coroutine_threadsafe] hands [task_queue.put(name)] to the event
    loop, which runs such callbacks in the order they were handed over.
    The call does not raise while the loop is running, so the [except]
    branch ("Failed to queue task") is never taken. *)
Definition on_created (name : string) (is_directory : bool) : M unit :=
  if is_directory then ret tt
  else if matches_task_pattern name then
    log (NewTaskDetected name);;
    modify (fun s => with_scheduled (scheduled s ++ [name]) s);;
    log (TaskQueuedSuccessfully name)
  else ret tt.

End TaskFileHandler.

Module MonitorDaemon.
Section WithEnv.
Variable env : Env.

(** The loop test [while self.running], reached at the start, after the
    sleep, by [continue] and after the generic handler. *)
Definition loop_test : M unit :=
  modify (fun s => with_pc (if running s then AtWaitFor else Finished) s).

(** From the resumption of [wait_for] to the next await.  [wait_for]
    raises [asyncio.TimeoutError] when [get_next] is still suspended
    after one second; the loop then continues. *)
Definition after_wait_for : M unit :=
  got ← TaskQueue.get_next env;
  match got with
  | None => loop_test
  | Some task_file =>
      n ← gets TaskQueue.size;
      log (StartingTask task_file n);;
      modify (with_flags (Some task_file) true);;
      TaskQueue._save_state env;;
      modify (with_pc (AtExecute task_file))
  end.

(** The awaited [execute_task] with its own [try]/[except], and the
    statements up to the sleep. *)
Definition run_task (task_file : string) : M unit :=
  try_except
    (result ← TaskExecutor.execute_task env task_file;
     let duration :=
       match completed_at result with
       | Some t => (t - started_at result)%Z
       | None => 0%Z
       end in
     log (TaskCompleted task_file (status result) duration))
    (fun e => log (TaskFailed task_file e));;
  modify (with_flags None false);;
  TaskQueue._save_state env;;
  modify (with_pc AtSleep).

(** The handler [except Exception as e] of the loop body. *)
Definition on_exception (e : exn) : M unit :=
  log (ErrorProcessingTask e);;
  modify (with_flags None false);;
  TaskQueue._save_state env.

(** The body of the [while] loop from one await to the next, under the
    outer [try] with its two [except] clauses.  A [TimeoutError] is met by
    [continue]: nothing is logged and the flags stay as the body left
    them.  Any other exception goes to the generic handler; an exception
    raised inside that handler leaves [_process_queue]. *)
Definition guarded (body : M unit) : State -> State :=
  fun s =>
    match body s with
    | (Return _, s') => s'
    | (Raise e, s') =>
        if is_TimeoutError e then snd (loop_test s')
        else
          match on_exception e s' with
          | (Return _, s'') => snd (loop_test s'')
          | (Raise e', s'') => with_pc (Crashed e') s''
          end
    end.

(** [_process_queue]: one resumption of the coroutine, from the await it
    is suspended at to the next one. *)
Definition _process_queue (s : State) : State :=
  match pc s with
  | NotStarted => snd ((log QueueProcessorStarted;; loop_test) s)
  | AtWaitFor => guarded after_wait_for s
  | AtExecute task_file => guarded (run_task task_file) s
  | AtSleep => snd (loop_test s)
  | Finished => s
  | Crashed _ => s
  end.

(** The event loop runs the oldest [put] handed over by the watcher.  An
    exception of [put] stays in its future, which nobody reads. *)
Definition run_scheduled (s : State) : State :=
  match scheduled s with
  | [] => s
  | task_file :: rest => snd (TaskQueue.put env task_file (with_scheduled rest s))
  end.

End WithEnv.
End MonitorDaemon.

(** ** Runs *)

(** What can happen next: the file system changes under the daemon, or the
    event loop runs one of its ready items. *)
Inductive Event :=
  | Created (name : string) (is_directory : bool) (text : string)
  | Deleted (name : string)
  | RunScheduled
  | Resume.

Definition step (env : Env) (ev : Event) (s : State) : State :=
  match ev with
  | Created name is_directory text =>
      let s := if is_directory then s else with_tasks (<[name := text]> (tasks s)) s in
      snd (TaskFileHandler.on_created name is_directory s)
  | Deleted name => with_tasks (delete name (tasks s)) s
  | RunScheduled => MonitorDaemon.run_scheduled env s
  | Resume => MonitorDaemon._process_queue env s
  end.

Definition run (env : Env) (evs : list Event) (s : State) : State :=
  fold_left (fun s ev => step env ev s) evs s.

(** The state in which [_run] creates the processor: a fresh [TaskQueue],
    [running] set, over the given directories and state file. *)
Definition initial (tasks0 : gmap string string)
    (results0 : gmap string TaskResult) (state_file0 : option QueueState.t)
  : State :=
  {| queue := []; current_task := None; is_processing := false;
     running := true; scheduled := []; pc := NotStarted;
     tasks := tasks0; results := results0; state_file := state_file0;
     clock_reads := 0; agent_calls := 0; state_opens := 0; trace := [] |}.

(** ** Vocabulary for the statements about the executor *)

(** A message that ends the [async for] loop by [break]. *)
Definition is_result_event (message : Message.t) : bool :=
  match Message.subtype message with
  | Some st => String.eqb st "success" || String.eqb st "error"
  | None => false
  end.

(** What a message adds to [full_output]. *)
Definition message_texts (message : Message.t) : list string :=
  match Message.subtype message, Message.content message with
  | None, Some blocks => TaskExecutor.block_texts blocks
  | _, _ => []
  end.

(** A run that makes the executor leave RUNNING: it delivers a success or
    error event, or its generator raises. *)
Definition resolves (run : AgentRun) : bool :=
  existsb is_result_event (yielded run) ||
  match raised run with Some _ => true | None => false end.

(** How the [async for] loop over a run ends: at the first message whose
    subtype is ["success"] or ["error"], by the generator raising, or by
    the generator running out of messages. *)
Inductive Ending :=
  | Succeeded (message : Message.t) (full_output : list string)
  | Errored (message : Message.t)
  | Threw (e : exn)
  | Exhausted.

Fixpoint ending (messages : list Message.t) (raised : option exn)
    (full_output : list string) : Ending :=
  match messages with
  | [] => match raised with Some e => Threw e | None => Exhausted end
  | message :: rest =>
      match Message.subtype message with
      | Some st =>
          if String.eqb st "success" then Succeeded message full_output
          else if String.eqb st "error" then Errored message
          else ending rest raised full_output
      | None =>
          match Message.content message with
          | Some blocks =>
              ending rest raised (full_output ++ TaskExecutor.block_texts blocks)
          | None => ending rest raised full_output
          end
      end
  end.

(** One more [datetime.now()] has been read. *)
Definition tick (s : State) : State :=
  with_counters (S (clock_reads s)) (agent_calls s) (state_opens s) s.

(** The assignments of the ["success"] branch, of the ["error"] branch and
    of the [except] handler, applied to the result object. *)
Definition completed (message : Message.t) (full_output : list string)
    (result : TaskResult) (t : Z) : TaskResult :=
  set_worker_output (set_completed_at (set_status result COMPLETED) t)
    {| summary := TaskExecutor.or_default (Message.result message) "Task completed";
       raw_output := join nl full_output;
       usage := Message.usage message;
       cost_usd := Message.total_cost_usd message |}.

Definition failed (message : Message.t) (result : TaskResult) (t : Z) : TaskResult :=
  set_error (set_completed_at (set_status result FAILED) t)
    (TaskExecutor.or_default (Message.result message) "Task failed").

Definition captured (e : exn) (result : TaskResult) (t : Z) : TaskResult :=
  set_completed_at
    (set_error (set_status result FAILED) (exn_kind e +:+ ": " +:+ exn_msg e)) t.

Section ExecutorVocabulary.
Variable env : Env.

(** The run the agent gives to the execution that starts in [s] on a
    document with content [text]. *)
Definition run_of (text : string) (s : State) : AgentRun :=
  query env (agent_calls s) (TaskExecutor.make_prompt text).

(** The [TaskResult] object as [execute_task] creates it in [s]. *)
Definition created_result (task_file : string) (s : State) : TaskResult :=
  new_TaskResult (stem task_file) RUNNING
    (now env (clock_reads s)) (now env (S (clock_reads s))).

(** The result object when the [async for] loop has ended: as the success
    or the error branch left it, or still as created. *)
Definition loop_result (task_file text : string) (s : State) : TaskResult :=
  let r0 := created_result task_file s in
  let t := now env (S (S (clock_reads s))) in
  match ending (yielded (run_of text s)) (raised (run_of text s)) [] with
  | Succeeded m out => completed m out r0 t
  | Errored m => failed m r0 t
  | Threw _ | Exhausted => r0
  end.

(** How often the clock has been read when the loop has ended. *)
Definition loop_reads (text : string) (s : State) : nat :=
  match ending (yielded (run_of text s)) (raised (run_of text s)) [] with
  | Succeeded _ _ | Errored _ => S (S (S (clock_reads s)))
  | Threw _ | Exhausted => S (S (clock_reads s))
  end.

(** The exception that leaves the [try] block, if any: the one the
    generator raised, or else the one the [_save_result] behind the loop
    raised. *)
Definition try_exception (text : string) (s : State) : option exn :=
  match ending (yielded (run_of text s)) (raised (run_of text s)) [] with
  | Threw e => Some e
  | _ => open_result_file env (agent_calls s)
  end.

(** The object [execute_task] returns for a document with content [text]. *)
Definition final_result (task_file text : string) (s : State) : TaskResult :=
  match try_exception text s with
  | None => loop_result task_file text s
  | Some e =>
      captured e (loop_result task_file text s) (now env (loop_reads text s))
  end.

(** The state [execute_task] leaves behind in that case. *)
Definition final_state (task_file text : string) (s : State) : State :=
  let r := final_result task_file text s in
  {| queue := queue s; current_task := current_task s;
     is_processing := is_processing s; running := running s;
     scheduled := scheduled s; pc := pc s; tasks := tasks s;
     results := <[stem task_file := r]> (results s);
     state_file := state_file s;
     clock_reads :=
       match try_exception text s with
       | None => loop_reads text s
       | Some _ => S (loop_reads text s)
       end;
     agent_calls := S (agent_calls s); state_opens := state_opens s;
     trace := (trace s ++ [Query (TaskExecutor.make_prompt text)])
              ++ [WriteResult (stem task_file) r] |}.

End ExecutorVocabulary.

(** The [TaskResult] object after the loop body has run on the first [k]
    messages of the run, that is, after [consume] on the generator cut
    short behind its [k]-th message.  When [execute_task] enters the loop,
    the clock has been read twice. *)
Definition result_after (env : Env) (k : nat) (task_file text : string)
    (s : State) : TaskResult :=
  let r0 := created_result env task_file s in
  match fst (TaskExecutor.consume env (take k (yielded (run_of env text s)))
               None [] r0 (tick (tick s))) with
  | Return (r, _) => r
  | Raise _ => r0
  end.

(** ** Sample inputs *)

Module Sample.

Definition text_message (texts : list string) : Message.t :=
  {| Message.subtype := None; Message.result := None; Message.usage := None;
     Message.total_cost_usd := None;
     Message.content := Some (map (fun t => {| text := Some t |}) texts) |}.

Definition result_message (st : string) (r : option string) : Message.t :=
  {| Message.subtype := Some st; Message.result := r;
     Message.usage := Some "{}"; Message.total_cost_usd := Some "0.01";
     Message.content := None |}.

(** A clock that advances by 5 between two readings. *)
Definition clock (k : nat) : Z := (1000 + 5 * Z.of_nat k)%Z.

(** The agent streams two texts and reports success. *)
Definition succeeding : AgentRun :=
  {| yielded := [text_message ["a"; "b"]; result_message "success" (Some "done")];
     raised := None |}.

(** The agent streams a text and reports an error. *)
Definition erroring : AgentRun :=
  {| yielded := [text_message ["a"]; result_message "error" (Some "bad input")];
     raised := None |}.

(** The agent streams a text, sends a message of another subtype, and
    stops. *)
Definition silent : AgentRun :=
  {| yielded := [text_message ["a"]; result_message "error_max_turns" None];
     raised := None |}.

(** The generator raises after a first text. *)
Definition raising : AgentRun :=
  {| yielded := [text_message ["partial"]];
     raised := Some (Exn "RuntimeError" "connection lost") |}.

(** The agent always behaves as [run], every open of the state file does
    [open_state], and the result file can be opened. *)
Definition env_of (run : AgentRun) (open_state : option exn) : Env :=
  {| now := clock; query := fun _ _ => run;
     open_state_file := fun _ => open_state;
     open_result_file := fun _ => None |}.

(** The first agent call is silent, the later ones succeed. *)
Definition env_silent_first : Env :=
  {| now := clock;
     query := fun k _ => match k with O => silent | S _ => succeeding end;
     open_state_file := fun _ => None;
     open_result_file := fun _ => None |}.

Definition disk_full : exn := Exn "OSError" "[Errno 28] No space left on device".

Definition too_many_files : exn := Exn "OSError" "[Errno 24] Too many open files".

(** The agent always behaves as [run], the state file can be written, and
    the result file cannot be opened at the end of the [try] block. *)
Definition env_result_fault (run : AgentRun) : Env :=
  {| now := clock; query := fun _ _ => run;
     open_state_file := fun _ => None;
     open_result_file := fun _ => Some too_many_files |}.

Definition timed_out : exn := Exn "TimeoutError" "[Errno 110] Connection timed out".

(** The agent works and the third open of the state file times out. *)
Definition env_timeout : Env :=
  {| now := clock; query := fun _ _ => succeeding;
     open_state_file := fun k => match k with 2 => Some timed_out | _ => None end;
     open_result_file := fun _ => None |}.

(** A started daemon whose [tasks/] holds one document. *)
Definition one_document : State :=
  initial {[ "task-1.md" := "Summarise the survey." ]} ∅ None.

(** Two documents are dropped and handed to the queue; the processor
    starts and works until it waits again. *)
Definition two_tasks : list Event :=
  [Created "task-1.md" false "Summarise the survey.";
   Created "task-2.md" false "Plot the answers.";
   RunScheduled; RunScheduled;
   Resume; Resume; Resume; Resume; Resume; Resume; Resume].

(** Two documents are dropped and handed to the queue, the first one is
    deleted before the processor starts, and the processor works until it
    sleeps after the second. *)
Definition first_deleted : list Event :=
  [Created "task-1.md" false "Summarise the survey.";
   Created "task-2.md" false "Plot the answers.";
   RunScheduled; RunScheduled; Deleted "task-1.md";
   Resume; Resume; Resume; Resume; Resume; Resume].

(** One document is dropped and handed to the queue; the processor starts
    and takes it from the queue. *)
Definition one_task : list Event :=
  [Created "task-1.md" false "Summarise the survey."; RunScheduled; Resume; Resume].

(** The queue is waiting to execute a document that has been deleted, with
    another one queued behind it. *)
Definition document_gone : State :=
  run (env_of succeeding None)
    [Created "task-1.md" false "Summarise the survey.";
     Created "task-2.md" false "Plot the answers.";
     RunScheduled; RunScheduled; Deleted "task-1.md"; Resume; Resume]
    (initial ∅ ∅ None).

(** The agent works and the state file can be written. *)
Definition env_ok : Env := env_of succeeding None.

(** The agent works and the state file cannot be written. *)
Definition env_disk_full : Env := env_of succeeding (Some disk_full).

(** One document has been dropped; its [put] waits in the event loop. *)
Definition one_dropped : State :=
  run env_disk_full [Created "task-1.md" false "Summarise the survey."]
    (initial ∅ ∅ None).

(** The processor waits on a queue that holds one task. *)
Definition ready : State :=
  run env_ok
    [Created "task-1.md" false "Summarise the survey."; RunScheduled; Resume]
    (initial ∅ ∅ None).

(** The processor waits on an empty queue. *)
Definition idle : State := run env_ok [Resume] (initial ∅ ∅ None).

(** The processor sleeps after a task, [running] has been cleared, and a
    task is still queued. *)
Definition stopping : State :=
  {| queue := ["task-2.md"]; current_task := None; is_processing := false;
     running := false; scheduled := []; pc := AtSleep;
     tasks := {[ "task-2.md" := "Plot the answers." ]}; results := ∅;
     state_file := None; clock_reads := 3; agent_calls := 1; state_opens := 4;
     trace := [] |}.

(** One document has been dropped and put into the queue. *)
Definition one_queued : State :=
  run env_ok [Created "task-1.md" false "Summarise the survey."; RunScheduled]
    (initial ∅ ∅ None).

End Sample.

(** ** Vocabulary for the statements about the queue and the loop *)

(** The dict [_save_state] builds in [s]. *)
Definition snapshot (s : State) : QueueState.t :=
  {| QueueState.queue_size := length (queue s);
     QueueState.current_task := current_task s;
     QueueState.is_processing := is_processing s;
     QueueState.queued_tasks := [] |}.

(** One more [open(STATE_FILE, 'w')] has been attempted. *)
Definition opened (s : State) : State :=
  with_counters (clock_reads s) (agent_calls s) (S (state_opens s)) s.

(** The state after a [_save_state] that went through. *)
Definition saved (s : State) : State :=
  emit (WriteState (snapshot s)) (with_state_file (Some (snapshot s)) (opened s)).

(** The duration the daemon logs for a returned result. *)
Definition logged_duration (r : TaskResult) : Z :=
  match completed_at r with
  | Some t => (t - started_at r)%Z
  | None => 0%Z
  end.

(** The exception [_read_task_document] raises for a missing document. *)
Definition not_found (task_file : string) : exn :=
  FileNotFoundError ("Task document not found: tasks/" +:+ task_file).

(** The state in which [run_task] reaches its [_save_state]: the task has
    been executed (or has failed to start), the outcome is logged and the
    flags are cleared. *)
Definition task_done (env : Env) (task_file : string) (s : State) : State :=
  with_flags None false
    match tasks s !! task_file with
    | Some text =>
        let r := final_result env task_file text s in
        emit (Log (TaskCompleted task_file (status r) (logged_duration r)))
          (final_state env task_file text s)
    | None => emit (Log (TaskFailed task_file (not_found task_file))) s
    end.

(** The loop test applied: where the coroutine waits next. *)
Definition looped (s : State) : State :=
  with_pc (if running s then AtWaitFor else Finished) s.

(** The names the watcher has handed to the queue, in the order of its
    "New task detected" records. *)
Definition detected (tr : list Effect) : list string :=
  omap (fun e => match e with Log (NewTaskDetected name) => Some name | _ => None end) tr.

(** The tasks the executor has been given and is done with, in the order
    of the daemon's "Task completed" and "Task failed" records. *)
Definition handled (tr : list Effect) : list string :=
  omap (fun e =>
          match e with
          | Log (TaskCompleted task_file _ _) => Some task_file
          | Log (TaskFailed task_file _) => Some task_file
          | _ => None
          end) tr.

(** The tasks still to be done: the one being executed, those in the
    queue, and those handed over by the watcher but not yet put. *)
Definition waiting (s : State) : list string :=
  match pc s with AtExecute task_file => [task_file] | _ => [] end
  ++ queue s ++ scheduled s.

(** The enqueue operations of a schedule: the names of the created files
    that match the task pattern. *)
Definition enqueued (evs : list Event) : list string :=
  omap (fun ev =>
          match ev with
          | Created name false _ =>
              if matches_task_pattern name then Some name else None
          | _ => None
          end) evs.

(** The event loop runs what is ready: the oldest scheduled [put], then the
    processor; [n] rounds of it. *)
Fixpoint rounds (n : nat) : list Event :=
  match n with
  | O => []
  | S n' => RunScheduled :: Resume :: rounds n'
  end.

(** The number of resumptions the processor still needs to be back at
    [wait_for] with nothing left to do. *)
Definition backlog (s : State) : nat :=
  3 * (length (queue s) + length (scheduled s)) +
  match pc s with
  | NotStarted => 1
  | AtWaitFor => 0
  | AtExecute _ => 2
  | AtSleep => 1
  | Finished | Crashed _ => 0
  end.

(** The processor is in its loop. *)
Definition alive (s : State) : Prop :=
  running s = true /\
  match pc s with Finished | Crashed _ => False | _ => True end.

(** ** The protocol of one execution, read off the trace *)

#[global] Instance TaskStatus_eq_dec : EqDecision TaskStatus.
Proof. solve_decision. Defined.

(** Where the processing of a task stands. *)
Inductive Phase :=
  | Idle                                         (* no task is being processed *)
  | Claimed (task_file : string)                 (* "Starting task" is logged *)
  | Calling (task_file : string)                 (* the agent has been called *)
  | Stored (task_file : string) (r : TaskResult). (* the result file is written *)

(** The task a phase belongs to. *)
Definition open_task (ph : Phase) : option string :=
  match ph with
  | Idle => None
  | Claimed task_file | Calling task_file | Stored task_file _ => Some task_file
  end.

(** What one effect does to the phase; [None] when the effect must not
    happen in this phase.
    - A task is started only when no other one is open.
    - The agent is called only for the started task, once.
    - The result file is written only after the agent call, under the
      task's id.
    - "Task completed" closes an execution whose result is stored with a
      status of COMPLETED or FAILED, and reports that status; "Task failed"
      closes one that raised before it called the agent; the loop's error
      handler gives up a task that was started but not yet executed.
    - A state file written while a task is open reports that task as
      [current_task] with [is_processing] set; written otherwise, it
      reports no task and [is_processing] clear. *)
Definition observe (ph : Phase) (e : Effect) : option Phase :=
  match e with
  | Log (StartingTask task_file _) =>
      match ph with Idle => Some (Claimed task_file) | _ => None end
  | Query _ =>
      match ph with Claimed task_file => Some (Calling task_file) | _ => None end
  | WriteResult id r =>
      match ph with
      | Calling task_file =>
          if decide (id = stem task_file) then Some (Stored task_file r) else None
      | _ => None
      end
  | Log (TaskCompleted task_file st _) =>
      match ph with
      | Stored task_file' r =>
          if decide (task_file = task_file' /\ st = status r /\
                     is_terminal (status r) = true)
          then Some Idle else None
      | _ => None
      end
  | Log (TaskFailed task_file _) =>
      match ph with
      | Claimed task_file' =>
          if decide (task_file = task_file') then Some Idle else None
      | _ => None
      end
  | Log (ErrorProcessingTask _) =>
      match ph with Idle | Claimed _ => Some Idle | _ => None end
  | WriteState st =>
      if decide (QueueState.current_task st = open_task ph /\
                 QueueState.is_processing st =
                   match open_task ph with Some _ => true | None => false end)
      then Some ph else None
  | Log _ => Some ph
  end.

(** Running the protocol over a trace. *)
Fixpoint monitor (ph : Phase) (tr : list Effect) : option Phase :=
  match tr with
  | [] => Some ph
  | e :: rest =>
      match observe ph e with
      | Some ph' => monitor ph' rest
      | None => None
      end
  end.

(** The phase that goes with the await the processor is suspended at. *)
Definition phase_of (p : Pc) : Phase :=
  match p with
  | AtExecute task_file => Claimed task_file
  | _ => Idle
  end.

(** The dicts written to the state file, oldest first. *)
Definition state_writes (tr : list Effect) : list QueueState.t :=
  omap (fun e => match e with WriteState st => Some st | _ => None end) tr.

(** Every result file holds a result in COMPLETED or FAILED. *)
Definition all_terminal (m : gmap string TaskResult) : Prop :=
  map_Forall (fun _ r => is_terminal (status r) = true) m.

(** The protocol has followed the processor, the flags of the queue say
    what the phase says, and the result files hold terminal results. *)
Definition in_step (s : State) : Prop :=
  monitor Idle (trace s) = Some (phase_of (pc s)) /\
  current_task s = open_task (phase_of (pc s)) /\
  is_processing s =
    match open_task (phase_of (pc s)) with Some _ => true | None => false end /\
  all_terminal (results s).

(** Nothing written to the state file, and nothing in it, lists a queued
    task. *)
Definition lists_no_task (s : State) : Prop :=
  Forall (fun st => QueueState.queued_tasks st = []) (state_writes (trace s)) /\
  match state_file s with
  | Some st => QueueState.queued_tasks st = []
  | None => True
  end.

(** ** Vocabulary for the further properties *)

(** A message the loop passes over without looking at its content: it has
    a subtype, and the subtype is neither ["success"] nor ["error"]. *)
Definition passed_over (message : Message.t) : bool :=
  match Message.subtype message with
  | Some _ => negb (is_result_event message)
  | None => false
  end.

(** The results written to result files, oldest first. *)
Definition written (tr : list Effect) : list TaskResult :=
  omap (fun e => match e with WriteResult _ r => Some r | _ => None end) tr.

(** The last time stamp a result carries. *)
Definition last_stamp (r : TaskResult) : Z :=
  match completed_at r with
  | Some t => t
  | None => started_at r
  end.

(** A clock that never goes back. *)
Definition monotone (clock : nat -> Z) : Prop :=
  forall i j, i <= j -> (clock i <= clock j)%Z.

(** ** The queue viewer of [scripts/cli.py] *)

Module Cli.

(** [show_queue]: the lines it prints.  It reads the state file the daemon
    writes; [state.get('current_task', 'None')] is Python's [None] when no
    task is being processed, which prints as ["None"]. *)
Definition show_queue (s : State) : list string :=
  match state_file s with
  | Some state =>
      ["Queue size: " +:+ pretty (QueueState.queue_size state);
       "Processing: " +:+
         match QueueState.current_task state with
         | Some task => task
         | None => "None"
         end]
      ++ match QueueState.queued_tasks state with
         | [] => []
         | queued =>
             "Queued tasks:" ::
             imap (fun i task => "  " +:+ pretty (S i) +:+ ". " +:+ task) queued
         end
  | None => ["Queue state not available (monitor may not be running)"]
  end.

End Cli.

(** * Properties *)

Ltac munfold :=
  unfold mbind, M_bind, mret, M_ret, bind, ret, raise, try_except, attempt,
    modify, gets, log in *.

(** ** The executor *)

Section Executor.
Variable env : Env.

Lemma consume_ending messages raised full_output result s :
  TaskExecutor.consume env messages raised full_output result s =
  match ending messages raised full_output with
  | Succeeded m out =>
      (Return (completed m out result (now env (clock_reads s)), None), tick s)
  | Errored m =>
      (Return (failed m result (now env (clock_reads s)), None), tick s)
  | Threw e => (Return (result, Some e), s)
  | Exhausted => (Return (result, None), s)
  end.
Proof.
  revert full_output.
  induction messages as [|m rest IH]; intros out; simpl.
  - destruct raised; reflexivity.
  - destruct (Message.subtype m) as [st|].
    + destruct (String.eqb st "success"); [reflexivity|].
      destruct (String.eqb st "error"); [reflexivity|]. apply IH.
    + destruct (Message.content m); apply IH.
Qed.

Lemma execute_task_missing task_file s :
  tasks s !! task_file = None ->
  TaskExecutor.execute_task env task_file s =
  (Raise (FileNotFoundError
            ("Task document not found: tasks/" +:+ task_file)), s).
Proof.
  intros H. unfold TaskExecutor.execute_task, TaskExecutor._read_task_document.
  munfold. rewrite H. reflexivity.
Qed.

Lemma execute_task_present task_file text s :
  tasks s !! task_file = Some text ->
  TaskExecutor.execute_task env task_file s =
  (Return (final_result env task_file text s), final_state env task_file text s).
Proof.
  intros H. unfold TaskExecutor.execute_task, TaskExecutor._read_task_document.
  munfold. rewrite H. cbn [TaskExecutor.datetime_now TaskExecutor.call_query].
  rewrite consume_ending.
  unfold final_state, final_result, try_exception, loop_result, loop_reads,
    run_of, created_result, TaskExecutor._save_result.
  cbn [with_counters emit clock_reads agent_calls state_opens].
  destruct (ending _ _ _); cbn [tick with_counters clock_reads agent_calls];
    try destruct (open_result_file env (agent_calls s)); reflexivity.
Qed.

End Executor.

(** ** How a run ends *)

Lemma ending_exhausted messages raised full_output :
  ending messages raised full_output = Exhausted <->
  existsb is_result_event messages = false /\ raised = None.
Proof.
  revert full_output.
  induction messages as [|m rest IH]; intros out; simpl.
  - destruct raised; split; [discriminate | intros [_ ?]; discriminate | tauto | tauto].
  - unfold is_result_event at 1.
    destruct (Message.subtype m) as [st|]; simpl.
    + destruct (String.eqb st "success"); simpl.
      { split; [discriminate | intros [? _]; discriminate]. }
      destruct (String.eqb st "error"); simpl.
      { split; [discriminate | intros [? _]; discriminate]. }
      apply IH.
    + destruct (Message.content m); apply IH.
Qed.

Lemma ending_threw messages e full_output :
  existsb is_result_event messages = false ->
  ending messages (Some e) full_output = Threw e.
Proof.
  revert full_output.
  induction messages as [|m rest IH]; intros out; simpl; [reflexivity|].
  unfold is_result_event at 1.
  destruct (Message.subtype m) as [st|]; simpl.
  - destruct (String.eqb st "success"); simpl; [discriminate|].
    destruct (String.eqb st "error"); simpl; [discriminate|]. apply IH.
  - destruct (Message.content m); apply IH.
Qed.

(** The loop stops at the first result event: what comes behind it, and
    how the generator would have ended, is never looked at. *)
Lemma ending_at_result_event messages raised full_output :
  match ending messages raised full_output with
  | Succeeded m out =>
      exists pre post, messages = pre ++ m :: post /\
        existsb is_result_event pre = false /\
        Message.subtype m = Some "success" /\
        out = full_output ++ concat (map message_texts pre)
  | Errored m =>
      exists pre post, messages = pre ++ m :: post /\
        existsb is_result_event pre = false /\
        Message.subtype m = Some "error"
  | Threw e => raised = Some e /\ existsb is_result_event messages = false
  | Exhausted => raised = None /\ existsb is_result_event messages = false
  end.
Proof.
  revert full_output.
  induction messages as [|m rest IH]; intros out; simpl.
  - destruct raised; auto.
  - assert (Hskip : forall out',
      is_result_event m = false ->
      match ending rest raised out' with
      | Succeeded m' o =>
          exists pre post, m :: rest = pre ++ m' :: post /\
            existsb is_result_event pre = false /\
            Message.subtype m' = Some "success" /\
            o = (out' ++ concat (map message_texts (tl pre)))
      | Errored m' =>
          exists pre post, m :: rest = pre ++ m' :: post /\
            existsb is_result_event pre = false /\
            Message.subtype m' = Some "error"
      | Threw e => raised = Some e /\ is_result_event m || existsb is_result_event rest = false
      | Exhausted => raised = None /\ is_result_event m || existsb is_result_event rest = false
      end).
    { intros out' Hm. specialize (IH out').
      destruct (ending rest raised out') as [m' o| m' |e|]; rewrite ?Hm; simpl; auto.
      - destruct IH as (pre & post & -> & Hpre & Hm' & ->).
        exists (m :: pre), post. simpl. rewrite Hm. auto.
      - destruct IH as (pre & post & -> & Hpre & Hm').
        exists (m :: pre), post. simpl. rewrite Hm. auto. }
    unfold is_result_event in Hskip at 1 2 3. unfold is_result_event at 1 2.
    destruct (Message.subtype m) as [st|] eqn:Hst; simpl in *.
    + destruct (String.eqb st "success") eqn:Hs; simpl in *.
      { apply String.eqb_eq in Hs; subst st.
        exists [], rest. simpl. rewrite app_nil_r. auto. }
      destruct (String.eqb st "error") eqn:He; simpl in *.
      { apply String.eqb_eq in He; subst st. exists [], rest. auto. }
      specialize (Hskip out eq_refl).
      destruct (ending rest raised out) as [m' o| m' |e|]; auto.
      destruct Hskip as (pre & post & Heq & Hpre & Hm' & ->).
      exists pre, post. repeat split; auto.
      destruct pre as [|p pre]; simpl in *.
      { injection Heq as -> _. rewrite Hst in Hm'. injection Hm' as ->. discriminate. }
      injection Heq as -> _. unfold message_texts at 2. rewrite Hst. reflexivity.
    + destruct (Message.content m) as [blocks|] eqn:Hc.
      * specialize (Hskip (out ++ TaskExecutor.block_texts blocks) eq_refl).
        destruct (ending rest raised _) as [m' o| m' |e|]; auto.
        destruct Hskip as (pre & post & Heq & Hpre & Hm' & ->).
        exists pre, post. repeat split; auto.
        destruct pre as [|p pre]; simpl in *.
        { injection Heq as -> _. rewrite Hst in Hm'. discriminate. }
        injection Heq as -> _. unfold message_texts at 2. rewrite Hst, Hc.
        rewrite <- app_assoc. reflexivity.
      * specialize (Hskip out eq_refl).
        destruct (ending rest raised _) as [m' o| m' |e|]; auto.
        destruct Hskip as (pre & post & Heq & Hpre & Hm' & ->).
        exists pre, post. repeat split; auto.
        destruct pre as [|p pre]; simpl in *.
        { injection Heq as -> _. rewrite Hst in Hm'. discriminate. }
        injection Heq as -> _. unfold message_texts at 2. rewrite Hst, Hc.
        reflexivity.
Qed.

(** Cutting the generator short either hides the result event or changes
    nothing. *)
Lemma ending_take k messages raised full_output :
  ending (take k messages) None full_output = Exhausted \/
  (ending (take k messages) None full_output = ending messages raised full_output /\
   ending messages raised full_output <> Exhausted /\
   forall e, ending messages raised full_output <> Threw e).
Proof.
  revert k full_output.
  induction messages as [|m rest IH]; intros k out.
  - rewrite take_nil. simpl. auto.
  - destruct k as [|k]; simpl; [auto|].
    destruct (Message.subtype m) as [st|].
    + destruct (String.eqb st "success"); [right; repeat split; congruence|].
      destruct (String.eqb st "error"); [right; repeat split; congruence|].
      apply IH.
    + destruct (Message.content m); apply IH.
Qed.

Section ExecutorClaims.
Variable env : Env.

Lemma resolves_ending (run : AgentRun) :
  resolves run = true <-> ending (yielded run) (raised run) [] <> Exhausted.
Proof.
  unfold resolves. rewrite ending_exhausted.
  destruct (existsb is_result_event (yielded run)), (raised run); simpl;
    split; try tauto; try congruence; intros H; try (exfalso; apply H; auto);
    intros [? ?]; congruence.
Qed.

Lemma loop_result_task_id task_file text s :
  task_id (loop_result env task_file text s) = stem task_file.
Proof. unfold loop_result. destruct (ending _ _ _); reflexivity. Qed.

Lemma final_result_task_id task_file text s :
  task_id (final_result env task_file text s) = stem task_file.
Proof.
  unfold final_result.
  destruct (try_exception env text s); cbn; apply loop_result_task_id.
Qed.

(** A run that delivers a success or error event or raises gives a result
    in COMPLETED or FAILED, whatever the write of the result does. *)
Lemma final_result_terminal task_file text s :
  resolves (run_of env text s) = true ->
  is_terminal (status (final_result env task_file text s)) = true.
Proof.
  intros Hres. apply resolves_ending in Hres.
  unfold final_result, try_exception, loop_result.
  destruct (ending _ _ _); [| |reflexivity|congruence];
    destruct (open_result_file env (agent_calls s)); reflexivity.
Qed.

Lemma result_after_ending k task_file text s :
  result_after env k task_file text s =
  match ending (take k (yielded (run_of env text s))) None [] with
  | Succeeded m out =>
      completed m out (created_result env task_file s) (now env (S (S (clock_reads s))))
  | Errored m =>
      failed m (created_result env task_file s) (now env (S (S (clock_reads s))))
  | Threw _ | Exhausted => created_result env task_file s
  end.
Proof.
  unfold result_after. rewrite consume_ending.
  destruct (ending _ _ _); reflexivity.
Qed.

(** While the loop runs, the result object is either as created or already
    what the loop will leave. *)
Lemma result_after_cases k task_file text s :
  result_after env k task_file text s = created_result env task_file s \/
  (result_after env k task_file text s = loop_result env task_file text s /\
   is_terminal (status (result_after env k task_file text s)) = true).
Proof.
  rewrite result_after_ending. unfold loop_result.
  destruct (ending_take k (yielded (run_of env text s)) (raised (run_of env text s)) [])
    as [-> | (-> & Hne & Hthrew)]; [left; reflexivity|].
  destruct (ending _ _ _) as [m out|m|e|]; [right|right|left|left]; auto.
Qed.

Lemma result_after_stable k k' task_file text s :
  k <= k' ->
  is_terminal (status (result_after env k task_file text s)) = true ->
  result_after env k' task_file text s = result_after env k task_file text s.
Proof.
  intros Hk. rewrite !result_after_ending.
  replace (take k (yielded (run_of env text s)))
    with (take k (take k' (yielded (run_of env text s))))
    by (rewrite take_take; f_equal; lia).
  destruct (ending_take k (take k' (yielded (run_of env text s))) None [])
    as [-> | (-> & _ & _)]; [discriminate | reflexivity].
Qed.


(** C5: when the generator raises before any success or error event, the
    executor returns (it does not raise) a result in FAILED whose [error]
    is the exception's kind, a colon and its message, stamped with
    [completed_at] and written to the result file. *)
Theorem exception_is_captured task_file text s e :
  tasks s !! task_file = Some text ->
  raised (run_of env text s) = Some e ->
  existsb is_result_event (yielded (run_of env text s)) = false ->
  exists r s',
    TaskExecutor.execute_task env task_file s = (Return r, s') /\
    status r = FAILED /\
    error r = Some (exn_kind e +:+ ": " +:+ exn_msg e) /\
    completed_at r = Some (now env (S (S (clock_reads s)))) /\
    results s' !! stem task_file = Some r.
Proof.
  intros Hdoc Hraised Hnone.
  exists (final_result env task_file text s), (final_state env task_file text s).
  split; [apply execute_task_present; exact Hdoc|].
  assert (Hfin : final_result env task_file text s =
                 captured e (created_result env task_file s)
                   (now env (S (S (clock_reads s))))).
  { unfold final_result, try_exception, loop_result, loop_reads.
    rewrite Hraised, (ending_threw _ e) by exact Hnone.
    reflexivity. }
  rewrite Hfin. repeat split.
  cbn [final_state results]. rewrite Hfin. apply lookup_insert_eq.
Qed.

(** C10, as amended: a result that [execute_task] returns in FAILED carries
    an error string, one in COMPLETED a [worker_output] and no error, and
    [stdout] is never set.  A result carries a [worker_output] only if a
    success event ended the loop over the messages; its [raw_output] is
    then the texts accumulated before that event, joined by newlines.  Such
    a result is COMPLETED, or else the write of the result failed after the
    success event and the handler made it FAILED, leaving the
    [worker_output] in place.  So a FAILED result that comes from an error
    event or from an exception of the agent call has no [worker_output]. *)
Theorem worker_output_is_set_by_a_success_event_only task_file s r s' :
  TaskExecutor.execute_task env task_file s = (Return r, s') ->
  results s' !! task_id r = Some r /\
  stdout r = None /\
  (status r = FAILED -> exists msg, error r = Some msg) /\
  (status r = COMPLETED ->
     error r = None /\ exists out, worker_output r = Some out) /\
  (forall out, worker_output r = Some out ->
     exists text pre m post,
       tasks s !! task_file = Some text /\
       yielded (run_of env text s) = pre ++ m :: post /\
       existsb is_result_event pre = false /\
       Message.subtype m = Some "success" /\
       raw_output out = join nl (concat (map message_texts pre)) /\
       (status r = COMPLETED \/
        exists e,
          open_result_file env (agent_calls s) = Some e /\
          status r = FAILED /\
          error r = Some (exn_kind e +:+ ": " +:+ exn_msg e))) /\
  (forall text,
     tasks s !! task_file = Some text ->
     status r = FAILED ->
     open_result_file env (agent_calls s) = None \/
     (forall pre m post,
        yielded (run_of env text s) = pre ++ m :: post ->
        existsb is_result_event pre = false ->
        Message.subtype m <> Some "success") ->
     worker_output r = None).
Proof.
  intros Hex.
  destruct (tasks s !! task_file) as [text|] eqn:Hdoc.
  2:{ rewrite execute_task_missing in Hex by exact Hdoc. discriminate. }
  rewrite (execute_task_present _ _ text) in Hex by exact Hdoc.
  injection Hex as <- <-.
  split.
  { rewrite final_result_task_id. apply lookup_insert_eq. }
  unfold final_result, try_exception, loop_result, loop_reads.
  pose proof (ending_at_result_event (yielded (run_of env text s))
                (raised (run_of env text s)) []) as Hend.
  destruct (ending _ _ _) as [m out|m|e|];
    [destruct (open_result_file env (agent_calls s)) as [e|] eqn:Hopen
    |destruct (open_result_file env (agent_calls s)) as [e|] eqn:Hopen
    |
    |destruct (open_result_file env (agent_calls s)) as [e|] eqn:Hopen];
    cbn.
  - destruct Hend as (pre & post & Heq & Hpre & Hm & ->).
    split; [reflexivity|]. split; [eauto|]. split; [discriminate|]. split.
    + intros out' Hout. injection Hout as <-.
      exists text, pre, m, post. repeat split; auto. right. exists e. auto.
    + intros text' Htext _ [Hno|Hno]; [discriminate|].
      injection Htext as <-. exfalso. exact (Hno pre m post Heq Hpre Hm).
  - destruct Hend as (pre & post & Heq & Hpre & Hm & ->).
    split; [reflexivity|]. split; [discriminate|]. split; [eauto|]. split.
    + intros out' Hout. injection Hout as <-.
      exists text, pre, m, post. repeat split; auto.
    + intros text' _ Hst. discriminate.
  - repeat split; try discriminate; eauto.
  - repeat split; try discriminate; eauto.
  - repeat split; try discriminate; eauto.
  - repeat split; try discriminate; eauto.
  - repeat split; try discriminate; eauto.
Qed.

End ExecutorClaims.

(** ** The building blocks of the loop *)

Section Blocks.
Variable env : Env.

Lemma save_state_eq s :
  TaskQueue._save_state env s =
  match open_state_file env (state_opens s) with
  | Some e => (Raise e, opened s)
  | None => (Return tt, saved s)
  end.
Proof. reflexivity. Qed.

Lemma put_eq task_file s :
  TaskQueue.put env task_file s =
  TaskQueue._save_state env
    (emit (Log (TaskQueued task_file (length (queue s ++ [task_file]))))
       (with_queue (queue s ++ [task_file]) s)).
Proof. reflexivity. Qed.

Lemma get_next_eq s :
  TaskQueue.get_next env s =
  match queue s with
  | [] => (Return None, s)
  | task :: rest =>
      match TaskQueue._save_state env
              (emit (Log (TaskRetrieved task)) (with_queue rest s)) with
      | (Return _, s') => (Return (Some task), s')
      | (Raise e, s') => (Raise e, s')
      end
  end.
Proof.
  unfold TaskQueue.get_next, TaskQueue.queue_get. munfold.
  destruct (queue s); reflexivity.
Qed.

Lemma run_task_eq task_file s :
  MonitorDaemon.run_task env task_file s =
  match TaskQueue._save_state env (task_done env task_file s) with
  | (Return _, s') => (Return tt, with_pc AtSleep s')
  | (Raise e, s') => (Raise e, s')
  end.
Proof.
  unfold MonitorDaemon.run_task, task_done. munfold.
  destruct (tasks s !! task_file) as [text|] eqn:Hdoc.
  - rewrite (execute_task_present env _ text) by exact Hdoc. reflexivity.
  - rewrite execute_task_missing by exact Hdoc. reflexivity.
Qed.

End Blocks.

Section Duration.
Variable env : Env.

(** C6: a result that [execute_task] returns in COMPLETED or FAILED is the
    content of the result file and carries a [completed_at], so that its
    [duration_seconds] has a value, [completed_at] minus [started_at]; it
    is the duration the daemon computes from the two stamps for its "Task
    completed" log record. *)
Theorem duration_seconds_is_completed_minus_started task_file s r s' :
  TaskExecutor.execute_task env task_file s = (Return r, s') ->
  is_terminal (status r) = true ->
  results s' !! task_id r = Some r /\
  exists t,
    completed_at r = Some t /\
    duration_seconds r = Some (t - started_at r)%Z /\
    Log (TaskCompleted task_file (status r) (t - started_at r))
      ∈ trace (snd (MonitorDaemon.run_task env task_file s)).
Proof.
  intros Hex Hterm.
  destruct (tasks s !! task_file) as [text|] eqn:Hdoc.
  2:{ rewrite execute_task_missing in Hex by exact Hdoc. discriminate. }
  rewrite (execute_task_present _ _ text) in Hex by exact Hdoc.
  injection Hex as <- <-.
  split; [rewrite final_result_task_id; apply lookup_insert_eq|].
  assert (exists t, completed_at (final_result env task_file text s) = Some t)
    as [t Ht].
  { revert Hterm. unfold final_result, try_exception, loop_result.
    destruct (ending _ _ _);
      try destruct (open_result_file env (agent_calls s));
      cbn; eauto; discriminate. }
  exists t. split; [exact Ht|].
  split; [unfold duration_seconds; rewrite Ht; reflexivity|].
  rewrite run_task_eq, save_state_eq. unfold task_done. rewrite Hdoc.
  unfold logged_duration. rewrite Ht.
  destruct (open_state_file env _); cbn; set_solver.
Qed.

End Duration.

(** ** Order of execution *)

Section Fifo.
Variable env : Env.
Hypothesis writable : forall k, open_state_file env k = None.

Lemma detected_app tr1 tr2 : detected (tr1 ++ tr2) = detected tr1 ++ detected tr2.
Proof. apply omap_app. Qed.

Lemma handled_app tr1 tr2 : handled (tr1 ++ tr2) = handled tr1 ++ handled tr2.
Proof. apply omap_app. Qed.

Ltac step_cases :=
  unfold step, MonitorDaemon.run_scheduled, MonitorDaemon._process_queue,
    MonitorDaemon.guarded, MonitorDaemon.after_wait_for,
    MonitorDaemon.on_exception, MonitorDaemon.loop_test,
    TaskFileHandler.on_created;
  munfold;
  repeat first
    [ rewrite put_eq | rewrite get_next_eq | rewrite run_task_eq
    | rewrite save_state_eq | rewrite writable ].

Ltac fields :=
  cbn [fst snd queue current_task is_processing running scheduled pc tasks
       results state_file clock_reads agent_calls state_opens trace
       with_queue with_flags with_scheduled with_pc with_tasks with_results
       with_state_file with_counters emit saved opened looped final_state
       task_done modify gets log ret raise bind try_except mbind mret M_bind
       M_ret length].

Lemma fifo_step ev s :
  handled (trace s) ++ waiting s = detected (trace s) ->
  handled (trace (step env ev s)) ++ waiting (step env ev s)
  = detected (trace (step env ev s)).
Proof.
  intros Inv. destruct ev as [name is_dir text|name| |].
  - step_cases. destruct is_dir; [exact Inv|].
    destruct (matches_task_pattern name); [|exact Inv].
    unfold waiting in *. cbn.
    rewrite !handled_app, !detected_app. cbn.
    rewrite !app_nil_r, <- Inv, <- !app_assoc. reflexivity.
  - exact Inv.
  - step_cases. destruct (scheduled s) as [|t rest] eqn:Hs; [exact Inv|].
    step_cases. unfold waiting in *. cbn.
    rewrite !handled_app, !detected_app. cbn.
    rewrite !app_nil_r, <- Inv, Hs, <- !app_assoc. reflexivity.
  - step_cases. unfold waiting in *.
    destruct (pc s) as [| |t| | |e] eqn:Hpc.
    + cbn. rewrite handled_app, detected_app. cbn.
      rewrite !app_nil_r. destruct (running s); exact Inv.
    + step_cases. destruct (queue s) as [|t rest] eqn:Hq.
      * cbn. rewrite Hq. destruct (running s); exact Inv.
      * step_cases. cbn. step_cases. cbn.
        rewrite !handled_app, !detected_app. cbn.
        rewrite !app_nil_r. exact Inv.
    + step_cases. cbn. unfold task_done.
      destruct (tasks s !! t) as [text|]; cbn;
        rewrite !handled_app, !detected_app; cbn;
        rewrite !app_nil_r, <- Inv, <- !app_assoc; reflexivity.
    + cbn. destruct (running s); exact Inv.
    + rewrite Hpc. exact Inv.
    + rewrite Hpc. exact Inv.
Qed.

Lemma detected_step ev s :
  detected (trace (step env ev s)) = detected (trace s) ++ enqueued [ev].
Proof.
  destruct ev as [name is_dir text|name| |]; cbn [enqueued omap].
  - step_cases. destruct is_dir; cbn; [rewrite app_nil_r; reflexivity|].
    destruct (matches_task_pattern name); cbn; [|rewrite app_nil_r; reflexivity].
    rewrite !detected_app. cbn. rewrite app_nil_r. reflexivity.
  - cbn. rewrite app_nil_r. reflexivity.
  - step_cases. cbn. rewrite app_nil_r.
    destruct (scheduled s) as [|t rest]; [reflexivity|].
    step_cases. cbn. rewrite !detected_app. cbn. rewrite !app_nil_r. reflexivity.
  - step_cases. cbn. rewrite app_nil_r.
    destruct (pc s) as [| |t| | |e].
    + cbn. rewrite detected_app. cbn. rewrite app_nil_r. reflexivity.
    + step_cases. destruct (queue s) as [|t rest]; [reflexivity|].
      step_cases. cbn. step_cases. cbn.
      rewrite !detected_app. cbn. rewrite !app_nil_r. reflexivity.
    + step_cases. cbn. unfold task_done.
      destruct (tasks s !! t) as [text|]; cbn;
        rewrite !detected_app; cbn; rewrite !app_nil_r; reflexivity.
    + reflexivity.
    + reflexivity.
    + reflexivity.
Qed.

Lemma enqueued_app evs1 evs2 : enqueued (evs1 ++ evs2) = enqueued evs1 ++ enqueued evs2.
Proof. apply omap_app. Qed.

Lemma run_app evs1 evs2 s : run env (evs1 ++ evs2) s = run env evs2 (run env evs1 s).
Proof. apply fold_left_app. Qed.

Lemma fifo_run evs s :
  handled (trace s) ++ waiting s = detected (trace s) ->
  handled (trace (run env evs s)) ++ waiting (run env evs s)
  = detected (trace s) ++ enqueued evs.
Proof.
  revert s. induction evs as [|ev evs IH]; intros s Inv; cbn [run fold_left].
  - cbn. rewrite app_nil_r. exact Inv.
  - change (fold_left _ evs ?x) with (run env evs x).
    rewrite IH by (apply fifo_step; exact Inv).
    rewrite detected_step, <- app_assoc.
    change (ev :: evs) with ([ev] ++ evs). rewrite enqueued_app. reflexivity.
Qed.

Lemma enqueued_rounds n : enqueued (rounds n) = [].
Proof. induction n; [reflexivity | exact IHn]. Qed.

Lemma alive_step ev s : alive s -> alive (step env ev s).
Proof.
  unfold alive. intros [Hrun Hpc]. destruct ev as [name is_dir text|name| |].
  - step_cases. destruct is_dir; [auto|].
    destruct (matches_task_pattern name); auto.
  - auto.
  - step_cases. destruct (scheduled s); [auto|]. step_cases. auto.
  - step_cases. destruct (pc s) as [| |t| | |e] eqn:Hp; try contradiction.
    + cbn. rewrite Hrun. auto.
    + step_cases. destruct (queue s); cbn; [rewrite Hrun; auto|].
      step_cases. cbn. step_cases. cbn. auto.
    + step_cases. cbn. unfold task_done.
      destruct (tasks s !! t); cbn; auto.
    + cbn. rewrite Hrun. auto.
Qed.

(** One round of the event loop works off one unit of the backlog. *)
Lemma backlog_round s :
  alive s -> backlog (run env [RunScheduled; Resume] s) <= pred (backlog s).
Proof.
  intros [Hrun Hpc]. cbn [run fold_left]. unfold backlog.
  step_cases.
  destruct (scheduled s) as [|t rest] eqn:Hs.
  - destruct (pc s) as [| |t'| | |e] eqn:Hp; try contradiction.
    + fields. rewrite ?Hrun, ?Hs. fields. lia.
    + step_cases. destruct (queue s) as [|t' rest'] eqn:Hq.
      * fields. rewrite ?Hrun, ?Hq, ?Hs. fields. lia.
      * step_cases. fields. step_cases. fields. rewrite ?Hs. fields. lia.
    + step_cases. fields. unfold task_done.
      destruct (tasks s !! t'); fields; rewrite ?Hs; fields; lia.
    + fields. rewrite ?Hrun, ?Hs. fields. lia.
  - step_cases. fields.
    destruct (pc s) as [| |t'| | |e] eqn:Hp; try contradiction.
    + fields. rewrite ?Hrun. fields. rewrite length_app. fields. lia.
    + step_cases. fields.
      destruct (queue s ++ [t]) as [|t' rest'] eqn:Hq.
      { destruct (queue s); discriminate. }
      step_cases. fields. step_cases. fields.
      apply (f_equal length) in Hq. rewrite length_app in Hq. cbn [length] in Hq. lia.
    + step_cases. fields. unfold task_done. fields.
      destruct (tasks s !! t'); fields; rewrite length_app; fields; lia.
    + fields. rewrite ?Hrun. fields. rewrite length_app. fields. lia.
Qed.

Lemma alive_run evs s : alive s -> alive (run env evs s).
Proof.
  revert s. induction evs as [|ev evs IH]; intros s H; [exact H|].
  apply IH, alive_step, H.
Qed.

Lemma backlog_rounds n s :
  alive s -> backlog s <= n -> backlog (run env (rounds n) s) = 0.
Proof.
  revert s. induction n as [|n IH]; intros s Ha Hb; [cbn [rounds run fold_left]; lia|].
  change (rounds (S n)) with ([RunScheduled; Resume] ++ rounds n).
  rewrite run_app. apply IH.
  - apply alive_run, Ha.
  - pose proof (backlog_round s Ha). lia.
Qed.

Lemma backlog_zero s : backlog s = 0 -> waiting s = [].
Proof.
  unfold backlog, waiting. intros H.
  destruct (queue s), (scheduled s), (pc s); cbn in *; try lia; reflexivity.
Qed.

(** C2: as long as the state file can be written, the tasks the executor
    has been given, followed by the tasks still waiting, are at every
    moment the enqueue operations in their order; and letting the event
    loop run long enough, the executor is given every one of them, in
    that order. *)
Theorem tasks_are_executed_in_fifo_order evs tasks0 results0 state_file0 :
  let s0 := initial tasks0 results0 state_file0 in
  handled (trace (run env evs s0)) ++ waiting (run env evs s0) = enqueued evs /\
  exists n, handled (trace (run env (evs ++ rounds n) s0)) = enqueued evs.
Proof.
  intros s0.
  assert (Inv0 : handled (trace s0) ++ waiting s0 = detected (trace s0))
    by reflexivity.
  split; [exact (fifo_run evs s0 Inv0)|].
  set (n := backlog (run env evs s0)).
  exists n.
  pose proof (fifo_run (evs ++ rounds n) s0 Inv0) as H.
  rewrite enqueued_app, enqueued_rounds, app_nil_r in H.
  change (detected (trace s0)) with (@nil string) in H.
  rewrite app_nil_l in H.
  rewrite <- H, run_app, (backlog_zero (run env (rounds n) (run env evs s0))),
    app_nil_r; [reflexivity|].
  apply backlog_rounds; [|unfold n; lia].
  apply alive_run. split; [reflexivity | exact I].
Qed.

End Fifo.

(** ** Sequential execution *)

Ltac fields :=
  cbn [fst snd queue current_task is_processing running scheduled pc tasks
       results state_file clock_reads agent_calls state_opens trace
       with_queue with_flags with_scheduled with_pc with_tasks with_results
       with_state_file with_counters emit saved opened looped final_state
       task_done modify gets log ret raise bind try_except mbind mret M_bind
       M_ret length snapshot QueueState.current_task QueueState.is_processing
       QueueState.queue_size QueueState.queued_tasks].

Ltac step_unfold :=
  unfold step, MonitorDaemon.run_scheduled, MonitorDaemon._process_queue,
    MonitorDaemon.guarded, MonitorDaemon.after_wait_for,
    MonitorDaemon.on_exception, MonitorDaemon.loop_test,
    TaskFileHandler.on_created;
  munfold;
  repeat first [ rewrite put_eq | rewrite get_next_eq | rewrite run_task_eq ].

(** Case analysis on every attempt to open the state file, and on the
    [except] clause that meets its exception. *)
Ltac save_cases env :=
  repeat (rewrite ?(save_state_eq env); fields;
          match goal with
          | |- context [open_state_file env ?k] =>
              destruct (open_state_file env k)
          | |- context [is_TimeoutError ?e] =>
              destruct (is_TimeoutError e)
          end;
          fields).

Section Sequential.
Variable env : Env.

(** Every run of the agent delivers a success or error event or raises. *)
Hypothesis resolving : forall k prompt, resolves (query env k prompt) = true.

(** No [open] of the state file raises a [TimeoutError]. *)
Hypothesis no_timeout :
  forall k e, open_state_file env k = Some e -> is_TimeoutError e = false.

Lemma monitor_app ph tr1 tr2 :
  monitor ph (tr1 ++ tr2) =
  match monitor ph tr1 with
  | Some ph' => monitor ph' tr2
  | None => None
  end.
Proof.
  revert ph. induction tr1 as [|e tr1 IH]; intros ph; cbn; [reflexivity|].
  destruct (observe ph e); [apply IH | reflexivity].
Qed.

Ltac monitor_steps Hm :=
  fields; rewrite ?monitor_app, ?Hm; cbn [monitor observe phase_of open_task];
  rewrite ?decide_True by auto;
  cbn [monitor observe phase_of open_task].

(** Case analysis on every attempt to open the state file, none of which
    raises a [TimeoutError]. *)
Ltac open_cases :=
  repeat (rewrite ?(save_state_eq env); fields;
          match goal with
          | |- context [open_state_file env ?k] =>
              let Ho := fresh "Ho" in
              destruct (open_state_file env k) eqn:Ho;
              [rewrite ?(no_timeout _ _ Ho)|]
          end;
          fields).

Lemma in_step_step ev s : in_step s -> in_step (step env ev s).
Proof.
  intros (Hm & Hcur & Hbusy & Hterm). unfold in_step.
  destruct ev as [name is_dir text|name| |].
  - step_unfold. destruct is_dir; [repeat split; auto|].
    destruct (matches_task_pattern name); [|repeat split; auto].
    monitor_steps Hm. repeat split; auto.
  - cbn. repeat split; auto.
  - step_unfold. destruct (scheduled s) as [|t rest]; [repeat split; auto|].
    step_unfold. open_cases; monitor_steps Hm; rewrite ?Hcur, ?Hbusy;
      rewrite ?decide_True by auto; repeat split; auto.
  - step_unfold. destruct (pc s) as [| |t| | |e] eqn:Hp.
    + monitor_steps Hm. destruct (running s); repeat split; auto.
    + destruct (queue s) as [|t rest]; fields.
      { destruct (running s); repeat split; auto. }
      cbn in Hcur, Hbusy. step_unfold.
      open_cases; monitor_steps Hm; rewrite ?Hcur, ?Hbusy;
        cbn [monitor observe phase_of open_task];
        rewrite ?decide_True by auto;
        cbn [monitor observe phase_of open_task];
        try (destruct (running s)); repeat split; auto.
    + cbn in Hcur, Hbusy. step_unfold. unfold task_done.
      destruct (tasks s !! t) as [text|].
      * assert (Hfin : is_terminal (status (final_result env t text s)) = true)
          by (apply final_result_terminal, resolving).
        assert (Hall : all_terminal (<[stem t := final_result env t text s]> (results s)))
          by (apply map_Forall_insert_2; assumption).
        open_cases; monitor_steps Hm;
          rewrite ?final_result_task_id;
          rewrite ?decide_True by auto;
          cbn [monitor observe phase_of open_task];
          rewrite ?decide_True by auto;
          cbn [monitor observe phase_of open_task];
          try (destruct (running s)); repeat split; auto.
      * open_cases; monitor_steps Hm;
          rewrite ?decide_True by auto;
          cbn [monitor observe phase_of open_task];
          rewrite ?decide_True by auto;
          cbn [monitor observe phase_of open_task];
          try (destruct (running s)); repeat split; auto.
    + fields. cbn in Hcur, Hbusy. destruct (running s); repeat split; auto.
    + rewrite Hp. repeat split; auto.
    + rewrite Hp. repeat split; auto.
Qed.

Lemma in_step_run evs s : in_step s -> in_step (run env evs s).
Proof.
  revert s. induction evs as [|ev evs IH]; intros s H; [exact H|].
  apply IH, in_step_step, H.
Qed.


End Sequential.

(** ** The list of queued tasks in the state file *)

Section QueuedTasks.
Variable env : Env.

Lemma state_writes_app tr1 tr2 :
  state_writes (tr1 ++ tr2) = state_writes tr1 ++ state_writes tr2.
Proof. apply omap_app. Qed.

Ltac writes_steps :=
  fields; rewrite ?state_writes_app; cbn;
  rewrite ?app_nil_r; repeat rewrite Forall_app;
  repeat split; auto; repeat constructor.

Lemma lists_no_task_step ev s : lists_no_task s -> lists_no_task (step env ev s).
Proof.
  intros (Hw & Hf). unfold lists_no_task.
  destruct ev as [name is_dir text|name| |].
  - step_unfold. destruct is_dir; [split; auto|].
    destruct (matches_task_pattern name); [|split; auto].
    writes_steps.
  - cbn. split; auto.
  - step_unfold. destruct (scheduled s) as [|t rest]; [split; auto|].
    step_unfold. save_cases env; writes_steps.
  - step_unfold. destruct (pc s) as [| |t| | |e] eqn:Hp.
    + writes_steps.
    + destruct (queue s) as [|t rest]; fields; [split; auto|].
      step_unfold. save_cases env; writes_steps.
    + step_unfold. unfold task_done.
      destruct (tasks s !! t) as [text|]; save_cases env; writes_steps.
    + fields. split; auto.
    + split; auto.
    + split; auto.
Qed.

Lemma lists_no_task_run evs s : lists_no_task s -> lists_no_task (run env evs s).
Proof.
  revert s. induction evs as [|ev evs IH]; intros s H; [exact H|].
  apply IH, lists_no_task_step, H.
Qed.

Lemma writes_step ev s :
  Forall (fun st => QueueState.queued_tasks st = []) (state_writes (trace s)) ->
  Forall (fun st => QueueState.queued_tasks st = [])
    (state_writes (trace (step env ev s))).
Proof.
  intros Hw.
  destruct ev as [name is_dir text|name| |].
  - step_unfold. destruct is_dir; [auto|].
    destruct (matches_task_pattern name); [|auto].
    writes_steps.
  - cbn. auto.
  - step_unfold. destruct (scheduled s) as [|t rest]; [auto|].
    step_unfold. save_cases env; writes_steps.
  - step_unfold. destruct (pc s) as [| |t| | |e] eqn:Hp.
    + writes_steps.
    + destruct (queue s) as [|t rest]; fields; [auto|].
      step_unfold. save_cases env; writes_steps.
    + step_unfold. unfold task_done.
      destruct (tasks s !! t) as [text|]; save_cases env; writes_steps.
    + fields. auto.
    + auto.
    + auto.
Qed.

Lemma writes_run evs s :
  Forall (fun st => QueueState.queued_tasks st = []) (state_writes (trace s)) ->
  Forall (fun st => QueueState.queued_tasks st = [])
    (state_writes (trace (run env evs s))).
Proof.
  revert s. induction evs as [|ev evs IH]; intros s H; [exact H|].
  apply IH, writes_step, H.
Qed.

(** C7, as amended: every dict the daemon writes to the state file has an
    empty [queued_tasks], whatever is waiting in the queue; and when the
    daemon starts without a state file, [get_queued_tasks] returns the
    empty list at every moment. *)
Theorem persisted_queued_tasks_is_always_empty evs tasks0 results0 state_file0 :
  Forall (fun st => QueueState.queued_tasks st = [])
    (state_writes (trace (run env evs (initial tasks0 results0 state_file0)))) /\
  fst (TaskQueue.get_queued_tasks (run env evs (initial tasks0 results0 None)))
  = Return [].
Proof.
  split.
  - apply writes_run. constructor.
  - destruct (lists_no_task_run evs (initial tasks0 results0 None))
      as [_ H]; [split; [constructor | exact I]|].
    unfold TaskQueue.get_queued_tasks, TaskQueue._load_state. munfold.
    destruct (state_file _); [rewrite H|]; reflexivity.
Qed.

End QueuedTasks.

(** ** A missing task document *)

Section MissingDocument.
Variable env : Env.
Hypothesis writable : forall k, open_state_file env k = None.

(** C4: when the document of the task to execute is gone, [execute_task]
    raises the not-found error ([FileNotFoundError], "Task document not
    found") and leaves the state as it was: no result is created, none is
    written.  The loop logs "Task failed", clears its flags, goes to sleep
    and, resumed twice more, is about to execute the next queued task. *)
Theorem missing_document_fails_only_its_task task_file next rest s :
  running s = true ->
  pc s = AtExecute task_file ->
  tasks s !! task_file = None ->
  queue s = next :: rest ->
  TaskExecutor.execute_task env task_file s = (Raise (not_found task_file), s) /\
  (let s1 := step env Resume s in
   pc s1 = AtSleep /\
   results s1 = results s /\
   queue s1 = queue s /\
   trace s1 = trace s ++
     [Log (TaskFailed task_file (not_found task_file));
      WriteState {| QueueState.queue_size := length (queue s);
                    QueueState.current_task := None;
                    QueueState.is_processing := false;
                    QueueState.queued_tasks := [] |}]) /\
  (let s3 := run env [Resume; Resume; Resume] s in
   pc s3 = AtExecute next /\ queue s3 = rest /\ results s3 = results s).
Proof.
  intros Hrun Hpc Hdoc Hq.
  split; [apply execute_task_missing; exact Hdoc|].
  assert (step env Resume s =
          with_pc AtSleep
            (saved (with_flags None false
                      (emit (Log (TaskFailed task_file (not_found task_file))) s))))
    as Hstep.
  { step_unfold. rewrite Hpc. step_unfold. rewrite save_state_eq, writable.
    unfold task_done. rewrite Hdoc. reflexivity. }
  split.
  { cbn zeta. rewrite Hstep. fields. rewrite <- app_assoc. repeat split. }
  cbn [run fold_left]. rewrite Hstep.
  step_unfold. fields. rewrite Hrun. fields.
  step_unfold. rewrite Hq. step_unfold.
  rewrite !save_state_eq, !writable. fields.
  rewrite !save_state_eq, !writable. fields.
  repeat split.
Qed.

End MissingDocument.

(** ** The queue size in the state file *)

Section QueueSize.
Variable env : Env.

(** C8: whenever the state file can be opened, what [_save_state] writes
    as [queue_size] is the length of the queue at that moment; for [put]
    that is the queue with the new task at its tail, for [get_next] the
    queue without its head. *)
Theorem persisted_queue_size_is_queue_length task_file s :
  open_state_file env (state_opens s) = None ->
  (let s' := snd (TaskQueue._save_state env s) in
   queue s' = queue s /\
   QueueState.queue_size <$> state_file s' = Some (length (queue s'))) /\
  (let s' := snd (TaskQueue.put env task_file s) in
   queue s' = queue s ++ [task_file] /\
   QueueState.queue_size <$> state_file s' = Some (length (queue s'))) /\
  (forall task rest, queue s = task :: rest ->
   let s' := snd (TaskQueue.get_next env s) in
   fst (TaskQueue.get_next env s) = Return (Some task) /\
   queue s' = rest /\
   QueueState.queue_size <$> state_file s' = Some (length (queue s'))).
Proof.
  intros Hopen. repeat split.
  - rewrite save_state_eq, Hopen. reflexivity.
  - rewrite save_state_eq, Hopen. reflexivity.
  - rewrite put_eq, save_state_eq. fields. rewrite Hopen. reflexivity.
  - rewrite put_eq, save_state_eq. fields. rewrite Hopen. reflexivity.
  - rewrite get_next_eq, H, save_state_eq. fields. rewrite Hopen. reflexivity.
  - rewrite get_next_eq, H, save_state_eq. fields. rewrite Hopen. reflexivity.
  - rewrite get_next_eq, H, save_state_eq. fields. rewrite Hopen. reflexivity.
Qed.

End QueueSize.

(** ** A state file that cannot be written *)

Section Crash.
Variable env : Env.

(** Once an exception has left [_process_queue], nothing is executed any
    more, whatever happens. *)
Lemma crashed_forever ev s e :
  pc s = Crashed e ->
  pc (step env ev s) = Crashed e /\
  handled (trace (step env ev s)) = handled (trace s) /\
  results (step env ev s) = results s.
Proof.
  intros Hpc. destruct ev as [name is_dir text|name| |].
  - step_unfold. destruct is_dir; [auto|].
    destruct (matches_task_pattern name); [|auto].
    fields. rewrite !handled_app. cbn. rewrite !app_nil_r. auto.
  - cbn. auto.
  - step_unfold. destruct (scheduled s) as [|t rest]; [auto|].
    step_unfold. save_cases env; rewrite !handled_app; cbn;
      rewrite !app_nil_r; auto.
  - step_unfold. rewrite Hpc. auto.
Qed.

Lemma crashed_run evs s e :
  pc s = Crashed e ->
  pc (run env evs s) = Crashed e /\
  handled (trace (run env evs s)) = handled (trace s) /\
  results (run env evs s) = results s.
Proof.
  revert s. induction evs as [|ev evs IH]; intros s Hpc; [auto|].
  cbn [run fold_left].
  destruct (crashed_forever ev s e Hpc) as (H1 & H2 & H3).
  destruct (IH _ H1) as (H4 & H5 & H6).
  unfold run in *. rewrite H4, H5, H6, H2, H3. auto.
Qed.

End Crash.

(** C9 fails on the code: with a state file that cannot be written, the
    task taken from the queue is dropped, the handler's own [_save_state]
    raises, and the processing loop is gone: nothing is executed any more,
    whatever happens later.  With a writable state file the same schedule,
    resumed once more, executes the task. *)
Lemma state_write_failure_stops_the_loop :
  pc (run (Sample.env_of Sample.succeeding (Some Sample.disk_full))
          Sample.one_task (initial ∅ ∅ None)) = Crashed Sample.disk_full /\
  queue (run (Sample.env_of Sample.succeeding (Some Sample.disk_full))
          Sample.one_task (initial ∅ ∅ None)) = [] /\
  (forall evs,
     handled (trace (run (Sample.env_of Sample.succeeding (Some Sample.disk_full))
                       (Sample.one_task ++ evs) (initial ∅ ∅ None))) = [] /\
     results (run (Sample.env_of Sample.succeeding (Some Sample.disk_full))
                (Sample.one_task ++ evs) (initial ∅ ∅ None)) = ∅) /\
  handled (trace (run Sample.env_ok (Sample.one_task ++ [Resume]) (initial ∅ ∅ None)))
  = ["task-1.md"].
Proof.
  split; [vm_compute; reflexivity|].
  split; [vm_compute; reflexivity|].
  split; [|vm_compute; reflexivity].
  intros evs. rewrite run_app.
  destruct (crashed_run (Sample.env_of Sample.succeeding (Some Sample.disk_full)) evs
              (run (Sample.env_of Sample.succeeding (Some Sample.disk_full))
                 Sample.one_task (initial ∅ ∅ None)) Sample.disk_full)
    as (_ & H2 & H3); [vm_compute; reflexivity|].
  rewrite H2, H3. split; vm_compute; reflexivity.
Qed.

(** ** Counterexamples to the claims as stated *)



(** C7 as stated fails: with one task waiting in the queue, the state file
    says [queue_size] 1 and lists no queued task. *)
Lemma state_file_does_not_list_the_queue :
  queue Sample.one_queued = ["task-1.md"] /\
  exists st,
    state_file Sample.one_queued = Some st /\
    QueueState.queue_size st = 1 /\
    QueueState.queued_tasks st = [] /\
    QueueState.queued_tasks st <> queue Sample.one_queued.
Proof.
  split; [vm_compute; reflexivity|].
  eexists. split; [vm_compute; reflexivity|].
  repeat split. discriminate.
Qed.

(** C10 as stated fails: when the result file cannot be opened after a
    success event, the result that is returned and written is FAILED and
    still carries the [worker_output] of the success branch, with the
    accumulated texts as [raw_output]. *)
Lemma failed_result_keeps_worker_output :
  exists r s' out,
    TaskExecutor.execute_task (Sample.env_result_fault Sample.succeeding)
      "task-1.md" Sample.one_document = (Return r, s') /\
    results s' !! "task-1" = Some r /\
    status r = FAILED /\
    worker_output r = Some out /\
    summary out = "done" /\
    raw_output out = "a" +:+ nl +:+ "b".
Proof.
  eexists _, _, _. split; [vm_compute; reflexivity|].
  repeat split; vm_compute; reflexivity.
Qed.

(** ** What the amended claims leave out *)

(** An agent run that ends without a success or error event and without
    raising: the result is written and returned as it was created, RUNNING
    and without [completed_at], and the next task is executed. *)
Lemma silent_run_leaves_the_result_running :
  (exists r s',
     TaskExecutor.execute_task (Sample.env_of Sample.silent None) "task-1.md"
       Sample.one_document = (Return r, s') /\
     status r = RUNNING /\ completed_at r = None /\
     results s' !! "task-1" = Some r) /\
  status <$> results (run Sample.env_silent_first Sample.two_tasks (initial ∅ ∅ None))
               !! "task-1" = Some RUNNING /\
  handled (trace (run Sample.env_silent_first Sample.two_tasks (initial ∅ ∅ None)))
  = ["task-1.md"; "task-2.md"].
Proof.
  split.
  - eexists _, _. split; [vm_compute; reflexivity|].
    split; [vm_compute; reflexivity|].
    split; vm_compute; reflexivity.
  - split; vm_compute; reflexivity.
Qed.

(** A [TimeoutError] raised by the open of the state file when a task is
    started is met by [continue]: the loop waits again with nothing logged,
    the task is off the queue and is never executed, and the flags still
    name it as being processed. *)
Lemma swallowed_timeout_leaves_the_flags_set :
  let s := run Sample.env_timeout Sample.one_task (initial ∅ ∅ None) in
  pc s = AtWaitFor /\ queue s = [] /\
  current_task s = Some "task-1.md" /\ is_processing s = true /\
  handled (trace s) = [] /\
  state_file (run Sample.env_timeout (Sample.one_task ++ [Resume]) (initial ∅ ∅ None))
  = state_file s.
Proof.
  cbv zeta.
  split; [vm_compute; reflexivity|]. split; [vm_compute; reflexivity|].
  split; [vm_compute; reflexivity|]. split; [vm_compute; reflexivity|].
  split; vm_compute; reflexivity.
Qed.

(** ** The theorems at sample inputs *)


(** C2 at a sample input: two documents dropped one after the other. *)
Lemma tasks_are_executed_in_fifo_order_witness :
  (forall k, open_state_file Sample.env_ok k = None) /\
  (let s0 := initial ∅ ∅ None in
   handled (trace (run Sample.env_ok Sample.two_tasks s0))
     ++ waiting (run Sample.env_ok Sample.two_tasks s0)
   = enqueued Sample.two_tasks /\
   exists n,
     handled (trace (run Sample.env_ok (Sample.two_tasks ++ rounds n) s0))
     = enqueued Sample.two_tasks).
Proof.
  split; [intros k; reflexivity|].
  apply (tasks_are_executed_in_fifo_order Sample.env_ok).
  intros k; reflexivity.
Defined.


(** C4 at a sample input: the first of two queued documents is deleted
    before it is executed. *)
Lemma missing_document_fails_only_its_task_witness :
  (forall k, open_state_file Sample.env_ok k = None) /\
  running Sample.document_gone = true /\
  pc Sample.document_gone = AtExecute "task-1.md" /\
  tasks Sample.document_gone !! "task-1.md" = None /\
  queue Sample.document_gone = ["task-2.md"] /\
  TaskExecutor.execute_task Sample.env_ok "task-1.md" Sample.document_gone
  = (Raise (not_found "task-1.md"), Sample.document_gone) /\
  (let s1 := step Sample.env_ok Resume Sample.document_gone in
   pc s1 = AtSleep /\
   results s1 = results Sample.document_gone /\
   queue s1 = queue Sample.document_gone /\
   trace s1 = trace Sample.document_gone ++
     [Log (TaskFailed "task-1.md" (not_found "task-1.md"));
      WriteState {| QueueState.queue_size := length (queue Sample.document_gone);
                    QueueState.current_task := None;
                    QueueState.is_processing := false;
                    QueueState.queued_tasks := [] |}]) /\
  (let s3 := run Sample.env_ok [Resume; Resume; Resume] Sample.document_gone in
   pc s3 = AtExecute "task-2.md" /\ queue s3 = [] /\
   results s3 = results Sample.document_gone).
Proof.
  split; [intros k; reflexivity|].
  split; [vm_compute; reflexivity|].
  split; [vm_compute; reflexivity|].
  split; [vm_compute; reflexivity|].
  split; [vm_compute; reflexivity|].
  apply (missing_document_fails_only_its_task Sample.env_ok);
    first [intros k; reflexivity | vm_compute; reflexivity].
Defined.

(** C5 at a sample input: the generator raises after a first text. *)
Lemma exception_is_captured_witness :
  tasks Sample.one_document !! "task-1.md" = Some "Summarise the survey." /\
  raised (run_of (Sample.env_of Sample.raising None) "Summarise the survey."
            Sample.one_document)
  = Some (Exn "RuntimeError" "connection lost") /\
  existsb is_result_event
    (yielded (run_of (Sample.env_of Sample.raising None) "Summarise the survey."
                Sample.one_document)) = false /\
  exists r s',
    TaskExecutor.execute_task (Sample.env_of Sample.raising None) "task-1.md"
      Sample.one_document = (Return r, s') /\
    status r = FAILED /\
    error r = Some ("RuntimeError" +:+ ": " +:+ "connection lost") /\
    completed_at r = Some (now (Sample.env_of Sample.raising None)
                             (S (S (clock_reads Sample.one_document)))) /\
    results s' !! stem "task-1.md" = Some r.
Proof.
  split; [vm_compute; reflexivity|].
  split; [vm_compute; reflexivity|].
  split; [vm_compute; reflexivity|].
  apply (exception_is_captured (Sample.env_of Sample.raising None) "task-1.md"
           "Summarise the survey." Sample.one_document
           (Exn "RuntimeError" "connection lost"));
    vm_compute; reflexivity.
Defined.

(** C6 at a sample input: an agent run that succeeds. *)
Lemma duration_seconds_is_completed_minus_started_witness :
  let r := final_result Sample.env_ok "task-1.md" "Summarise the survey."
             Sample.one_document in
  let s' := final_state Sample.env_ok "task-1.md" "Summarise the survey."
              Sample.one_document in
  TaskExecutor.execute_task Sample.env_ok "task-1.md" Sample.one_document
  = (Return r, s') /\
  is_terminal (status r) = true /\
  results s' !! task_id r = Some r /\
  exists t,
    completed_at r = Some t /\
    duration_seconds r = Some (t - started_at r)%Z /\
    Log (TaskCompleted "task-1.md" (status r) (t - started_at r))
      ∈ trace (snd (MonitorDaemon.run_task Sample.env_ok "task-1.md"
                      Sample.one_document)).
Proof.
  intros r s'.
  split; [vm_compute; reflexivity|].
  split; [vm_compute; reflexivity|].
  apply (duration_seconds_is_completed_minus_started Sample.env_ok "task-1.md"
           Sample.one_document r s');
    vm_compute; reflexivity.
Defined.

(** C8 at a sample input: a queue that holds one task. *)
Lemma persisted_queue_size_is_queue_length_witness :
  open_state_file Sample.env_ok (state_opens Sample.one_queued) = None /\
  (let s' := snd (TaskQueue._save_state Sample.env_ok Sample.one_queued) in
   queue s' = queue Sample.one_queued /\
   QueueState.queue_size <$> state_file s' = Some (length (queue s'))) /\
  (let s' := snd (TaskQueue.put Sample.env_ok "task-2.md" Sample.one_queued) in
   queue s' = queue Sample.one_queued ++ ["task-2.md"] /\
   QueueState.queue_size <$> state_file s' = Some (length (queue s'))) /\
  (forall task rest, queue Sample.one_queued = task :: rest ->
   let s' := snd (TaskQueue.get_next Sample.env_ok Sample.one_queued) in
   fst (TaskQueue.get_next Sample.env_ok Sample.one_queued) = Return (Some task) /\
   queue s' = rest /\
   QueueState.queue_size <$> state_file s' = Some (length (queue s'))).
Proof.
  split; [reflexivity|].
  apply (persisted_queue_size_is_queue_length Sample.env_ok "task-2.md"
           Sample.one_queued).
  reflexivity.
Defined.

(** C10, as amended, at a sample input: an agent run that reports an
    error. *)
Lemma worker_output_is_set_by_a_success_event_only_witness :
  let env := Sample.env_of Sample.erroring None in
  let s := Sample.one_document in
  let r := final_result env "task-1.md" "Summarise the survey." s in
  let s' := final_state env "task-1.md" "Summarise the survey." s in
  TaskExecutor.execute_task env "task-1.md" s = (Return r, s') /\
  results s' !! task_id r = Some r /\
  stdout r = None /\
  (status r = FAILED -> exists msg, error r = Some msg) /\
  (status r = COMPLETED ->
     error r = None /\ exists out, worker_output r = Some out) /\
  (forall out, worker_output r = Some out ->
     exists text pre m post,
       tasks s !! "task-1.md" = Some text /\
       yielded (run_of env text s) = pre ++ m :: post /\
       existsb is_result_event pre = false /\
       Message.subtype m = Some "success" /\
       raw_output out = join nl (concat (map message_texts pre)) /\
       (status r = COMPLETED \/
        exists e,
          open_result_file env (agent_calls s) = Some e /\
          status r = FAILED /\
          error r = Some (exn_kind e +:+ ": " +:+ exn_msg e))) /\
  (forall text,
     tasks s !! "task-1.md" = Some text ->
     status r = FAILED ->
     open_result_file env (agent_calls s) = None \/
     (forall pre m post,
        yielded (run_of env text s) = pre ++ m :: post ->
        existsb is_result_event pre = false ->
        Message.subtype m <> Some "success") ->
     worker_output r = None).
Proof.
  intros env s r s'.
  split; [vm_compute; reflexivity|].
  apply (worker_output_is_set_by_a_success_event_only env "task-1.md" s r s').
  vm_compute; reflexivity.
Defined.

(** * Further properties of the code *)

(** ** File names, the task pattern and task ids *)

Lemma string_app_cons (c : ascii) (a b : string) :
  String c a +:+ b = String c (a +:+ b).
Proof. reflexivity. Qed.

Lemma string_app_nil (b : string) : "" +:+ b = b.
Proof. reflexivity. Qed.

Lemma string_length_app (a b : string) :
  String.length (a +:+ b) = String.length a + String.length b.
Proof.
  induction a as [|c a IH]; [reflexivity|].
  rewrite string_app_cons. cbn. f_equal. exact IH.
Qed.

Lemma string_app_assoc (a b c : string) : (a +:+ b) +:+ c = a +:+ (b +:+ c).
Proof.
  induction a as [|x a IH]; [reflexivity|].
  rewrite !string_app_cons. f_equal. exact IH.
Qed.

Lemma substring_all (b : string) : String.substring 0 (String.length b) b = b.
Proof. induction b as [|c b IH]; cbn; [reflexivity | f_equal; exact IH]. Qed.

Lemma substring_app_r (a b : string) :
  String.substring (String.length a) (String.length b) (a +:+ b) = b.
Proof.
  induction a as [|c a IH]; [apply substring_all|].
  rewrite string_app_cons. cbn. exact IH.
Qed.

Lemma substring_app_l (a b : string) :
  String.substring 0 (String.length a) (a +:+ b) = a.
Proof.
  induction a as [|c a IH]; [rewrite string_app_nil; destruct b; reflexivity|].
  rewrite string_app_cons. cbn. f_equal. exact IH.
Qed.

Lemma substring_split (s : string) (i : nat) :
  i <= String.length s ->
  s = String.substring 0 i s +:+ String.substring i (String.length s - i) s.
Proof.
  revert i. induction s as [|c s IH]; intros i Hi; cbn in *.
  - destruct i; reflexivity.
  - destruct i as [|i]; cbn.
    + rewrite string_app_nil, substring_all. reflexivity.
    + rewrite string_app_cons, <- IH by lia. reflexivity.
Qed.

Lemma prefix_app (p s : string) :
  String.prefix p s = true <-> exists r, s = p +:+ r.
Proof.
  revert s. induction p as [|c p IH]; intros s.
  - split; [intros _; exists s; reflexivity | intros _; destruct s; reflexivity].
  - destruct s as [|d s]; cbn.
    + split; [discriminate | intros [r Hr]; discriminate].
    + destruct (ascii_dec c d) as [->|Hne].
      * rewrite IH. split; intros [r Hr]; exists r.
        -- rewrite Hr. reflexivity.
        -- rewrite string_app_cons in Hr. injection Hr as ->. reflexivity.
      * split; [discriminate|].
        intros [r Hr]. rewrite string_app_cons in Hr.
        injection Hr as -> _. contradiction.
Qed.

Lemma endswith_app (s suffix : string) :
  endswith s suffix = true <-> exists r, s = r +:+ suffix.
Proof.
  unfold endswith. rewrite andb_true_iff, Nat.leb_le, String.eqb_eq. split.
  - intros [Hle Hsub].
    exists (String.substring 0 (String.length s - String.length suffix) s).
    pose proof (substring_split s (String.length s - String.length suffix)) as Hs.
    replace (String.length s - (String.length s - String.length suffix))
      with (String.length suffix) in Hs by lia.
    rewrite Hsub in Hs. apply Hs. lia.
  - intros [r ->]. rewrite string_length_app. split; [lia|].
    replace (String.length r + String.length suffix - String.length suffix)
      with (String.length r) by lia.
    apply substring_app_r.
Qed.

(** X1: a file name matches the pattern [task-*.md] exactly when it
    consists of ["task-"], any run of characters, and [".md"]. *)
Theorem matches_task_pattern_spec (name : string) :
  matches_task_pattern name = true <->
  exists middle, name = "task-" +:+ middle +:+ ".md".
Proof.
  unfold matches_task_pattern.
  rewrite !andb_true_iff, prefix_app, endswith_app, Nat.leb_le. split.
  - intros [[[r Hr] [q Hq]] Hlen].
    assert (5 <= String.length q) as Hq5.
    { rewrite Hq, string_length_app in Hlen. cbn in Hlen. lia. }
    rewrite Hq in Hr.
    do 5 (destruct q as [|? q]; [cbn in Hq5; lia|]).
    rewrite !string_app_cons in Hr. injection Hr as -> -> -> -> -> _.
    exists q. exact Hq.
  - intros [middle ->]. repeat split.
    + exists (middle +:+ ".md"). reflexivity.
    + exists ("task-" +:+ middle). rewrite string_app_assoc. reflexivity.
    + rewrite !string_length_app. cbn. lia.
Qed.

Lemma rfind_dot_md (s : string) (i : nat) :
  rfind_dot (s +:+ ".md") i = Some (i + String.length s).
Proof.
  revert i. induction s as [|c s IH]; intros i.
  - cbn. f_equal. lia.
  - rewrite string_app_cons. cbn. rewrite IH. cbn. f_equal. lia.
Qed.

(** X2: the task id of a file that matches the pattern is the file name
    without its [.md]; so two different task files never share a task id,
    that is, a result file. *)
Theorem stem_of_task_file (name name' : string) :
  matches_task_pattern name = true ->
  matches_task_pattern name' = true ->
  stem name +:+ ".md" = name /\
  (stem name = stem name' -> name = name').
Proof.
  assert (forall n, matches_task_pattern n = true -> stem n +:+ ".md" = n) as H.
  { intros n [middle ->]%matches_task_pattern_spec.
    rewrite <- (string_app_assoc "task-" middle ".md").
    set (pre := "task-" +:+ middle).
    assert (5 <= String.length pre) as Hpre
      by (unfold pre; rewrite string_length_app; cbn; lia).
    unfold stem. rewrite rfind_dot_md, Nat.add_0_l.
    assert ((0 <? String.length pre)%nat
            && (String.length pre <? String.length (pre +:+ ".md") - 1)%nat = true)
      as ->.
    { rewrite andb_true_iff, !Nat.ltb_lt, string_length_app. cbn. lia. }
    rewrite substring_app_l. reflexivity. }
  intros Hn Hn'. split; [apply H, Hn|].
  intros Heq. rewrite <- (H name Hn), <- (H name' Hn'), Heq. reflexivity.
Qed.

(** ** More about the executor *)

Section ExecutorMore.
Variable env : Env.

(** X3: [execute_task] changes nothing but the result file of its own
    task: the queue and its flags, the scheduled puts, the processor, the
    task documents, the state file and every other task's result are as
    before, and the trace is only extended. *)
Theorem execute_task_touches_one_result task_file s :
  let s' := snd (TaskExecutor.execute_task env task_file s) in
  queue s' = queue s /\ current_task s' = current_task s /\
  is_processing s' = is_processing s /\ running s' = running s /\
  scheduled s' = scheduled s /\ pc s' = pc s /\ tasks s' = tasks s /\
  state_file s' = state_file s /\ state_opens s' = state_opens s /\
  (forall id, id <> stem task_file -> results s' !! id = results s !! id) /\
  (exists added, trace s' = trace s ++ added).
Proof.
  destruct (tasks s !! task_file) as [text|] eqn:Hdoc.
  - rewrite (execute_task_present env _ text) by exact Hdoc.
    cbn [snd final_state queue current_task is_processing running scheduled
         pc tasks state_file state_opens results trace].
    repeat split.
    + intros id Hid. apply lookup_insert_ne. congruence.
    + eexists. rewrite <- app_assoc. reflexivity.
  - rewrite execute_task_missing by exact Hdoc. cbn [snd].
    repeat split. exists []. rewrite app_nil_r. reflexivity.
Qed.

(** X4: what [execute_task] returns depends on the task document, the
    clock and the agent alone: two states that agree on the document and
    on how often the clock and the agent have been used give the same
    outcome, whatever results, queue or state file they hold. *)
Theorem execute_task_reads_document_only task_file s1 s2 :
  tasks s1 !! task_file = tasks s2 !! task_file ->
  clock_reads s1 = clock_reads s2 ->
  agent_calls s1 = agent_calls s2 ->
  fst (TaskExecutor.execute_task env task_file s1)
  = fst (TaskExecutor.execute_task env task_file s2).
Proof.
  intros Hdoc Hclock Hagent.
  destruct (tasks s2 !! task_file) as [text|] eqn:H2.
  - rewrite !(execute_task_present env _ text) by assumption.
    cbn [fst].
    unfold final_result, try_exception, loop_result, loop_reads,
      created_result, run_of.
    rewrite Hclock, Hagent. reflexivity.
  - rewrite !execute_task_missing by assumption. reflexivity.
Qed.

(** X5: results are overwritten in place.  Executing the same task file a
    second time leaves one result file for its task id, holding the result
    of the second execution; the set of result files does not grow and no
    other result changes. *)
Theorem result_is_overwritten task_file s r1 s1 r2 s2 :
  TaskExecutor.execute_task env task_file s = (Return r1, s1) ->
  TaskExecutor.execute_task env task_file s1 = (Return r2, s2) ->
  results s1 !! stem task_file = Some r1 /\
  results s2 !! stem task_file = Some r2 /\
  dom (results s2) = dom (results s1) /\
  (forall id, id <> stem task_file -> results s2 !! id = results s !! id).
Proof.
  intros H1 H2.
  destruct (tasks s !! task_file) as [text|] eqn:Hdoc.
  2:{ rewrite execute_task_missing in H1 by exact Hdoc. discriminate. }
  rewrite (execute_task_present env _ text) in H1 by exact Hdoc.
  injection H1 as <- <-.
  destruct (tasks (final_state env task_file text s) !! task_file)
    as [text'|] eqn:Hdoc'.
  2:{ rewrite execute_task_missing in H2 by exact Hdoc'. discriminate. }
  rewrite (execute_task_present env _ text') in H2 by exact Hdoc'.
  injection H2 as <- <-.
  cbn [final_state results]. repeat split.
  - apply lookup_insert_eq.
  - apply lookup_insert_eq.
  - rewrite !dom_insert_L, (assoc_L (∪)), (idemp_L (∪)). reflexivity.
  - intros id Hid. rewrite !lookup_insert_ne by congruence. reflexivity.
Qed.

Lemma or_default_not_empty x default :
  default <> "" -> TaskExecutor.or_default x default <> "".
Proof.
  intros Hd. unfold TaskExecutor.or_default.
  destruct x as [v|]; [|exact Hd].
  destruct (String.eqb v "") eqn:Hv; [exact Hd|].
  apply String.eqb_neq. exact Hv.
Qed.

(** X6: a result returned in FAILED always carries a non-empty error
    string, and one returned in COMPLETED a non-empty summary: an empty or
    missing [message.result] is replaced by "Task failed" or "Task
    completed", and a captured exception is rendered with its colon. *)
Theorem failure_and_success_are_never_silent task_file s r s' :
  TaskExecutor.execute_task env task_file s = (Return r, s') ->
  (status r = FAILED -> exists msg, error r = Some msg /\ msg <> "") /\
  (status r = COMPLETED ->
   exists out, worker_output r = Some out /\ summary out <> "").
Proof.
  intros Hex.
  destruct (tasks s !! task_file) as [text|] eqn:Hdoc.
  2:{ rewrite execute_task_missing in Hex by exact Hdoc. discriminate. }
  rewrite (execute_task_present env _ text) in Hex by exact Hdoc.
  injection Hex as <- <-.
  assert (Hcolon : forall e : exn, exn_kind e +:+ ": " +:+ exn_msg e <> "").
  { intros e H. apply (f_equal String.length) in H.
    rewrite !string_length_app in H. cbn in H. lia. }
  unfold final_result, try_exception, loop_result.
  destruct (ending _ _ _) as [m out|m|e|];
    try destruct (open_result_file env (agent_calls s)) as [e'|];
    cbn; split; try discriminate; intros _; eexists;
    (split; [reflexivity|]);
    first [ apply Hcolon | apply or_default_not_empty; discriminate ].
Qed.

(** A message the loop passes over: it has a subtype, and the subtype is
    neither ["success"] nor ["error"]. *)
Lemma consume_skips message messages raised full_output result s st :
  Message.subtype message = Some st ->
  is_result_event message = false ->
  TaskExecutor.consume env (message :: messages) raised full_output result s
  = TaskExecutor.consume env messages raised full_output result s.
Proof.
  intros Hst Hev. unfold is_result_event in Hev. rewrite Hst in Hev.
  apply orb_false_iff in Hev as [Hs He].
  cbn [TaskExecutor.consume]. rewrite Hst, Hs, He. reflexivity.
Qed.

End ExecutorMore.

Section AgentMessages.
Variable env : Env.

(** X7: messages that have a subtype other than ["success"] and ["error"]
    are passed over, content and all: dropping them from the run changes
    neither the result object nor the state the loop leaves. *)
Theorem passed_over_messages_do_not_count messages raised full_output result s :
  TaskExecutor.consume env
    (List.filter (fun m => negb (passed_over m)) messages)
    raised full_output result s
  = TaskExecutor.consume env messages raised full_output result s.
Proof.
  revert full_output.
  induction messages as [|m rest IH]; intros out; [reflexivity|].
  cbn [List.filter]. unfold passed_over at 1.
  destruct (Message.subtype m) as [st|] eqn:Hst.
  - destruct (is_result_event m) eqn:Hev; cbn [negb].
    + unfold is_result_event in Hev. rewrite Hst in Hev.
      cbn [TaskExecutor.consume]. rewrite Hst.
      destruct (String.eqb st "success"); [reflexivity|].
      destruct (String.eqb st "error"); [reflexivity|]. discriminate.
    + rewrite (consume_skips env m rest raised out result s st Hst Hev).
      apply IH.
  - cbn [negb TaskExecutor.consume]. rewrite Hst.
    destruct (Message.content m); apply IH.
Qed.

(** X8: the loop breaks at a success or error event: whatever the
    generator would have yielded or raised after it has no effect. *)
Theorem nothing_is_read_after_a_result_event
    before message after raised raised' full_output result s :
  is_result_event message = true ->
  TaskExecutor.consume env (before ++ message :: after) raised
    full_output result s
  = TaskExecutor.consume env (before ++ [message]) raised'
      full_output result s.
Proof.
  intros Hev. revert full_output.
  induction before as [|m rest IH]; intros out.
  - unfold is_result_event in Hev. cbn [app TaskExecutor.consume].
    destruct (Message.subtype message) as [st|]; [|discriminate].
    destruct (String.eqb st "success"); [reflexivity|].
    destruct (String.eqb st "error"); [reflexivity|]. discriminate.
  - cbn [app TaskExecutor.consume].
    destruct (Message.subtype m) as [st|].
    + destruct (String.eqb st "success"); [reflexivity|].
      destruct (String.eqb st "error"); [reflexivity|]. apply IH.
    + destruct (Message.content m); apply IH.
Qed.

(** X9: the stamps of a result are successive readings of the clock: with
    a clock that never goes back, [created_at] is not after [started_at],
    [started_at] not after [completed_at], and the duration the daemon
    logs is not negative. *)
Theorem stamps_follow_the_clock task_file s r s' :
  monotone (now env) ->
  TaskExecutor.execute_task env task_file s = (Return r, s') ->
  (created_at r <= started_at r)%Z /\
  (forall t, completed_at r = Some t -> (started_at r <= t)%Z) /\
  (0 <= logged_duration r)%Z.
Proof.
  intros Hmono Hex.
  destruct (tasks s !! task_file) as [text|] eqn:Hdoc.
  2:{ rewrite execute_task_missing in Hex by exact Hdoc. discriminate. }
  rewrite (execute_task_present env _ text) in Hex by exact Hdoc.
  injection Hex as <- <-.
  pose proof (Hmono (clock_reads s) (S (clock_reads s))) as H01.
  pose proof (Hmono (S (clock_reads s)) (S (S (clock_reads s)))) as H12.
  pose proof (Hmono (S (S (clock_reads s))) (S (S (S (clock_reads s))))) as H23.
  unfold final_result, try_exception, loop_result, loop_reads, logged_duration.
  destruct (ending _ _ _);
    try destruct (open_result_file env (agent_calls s));
    cbn; repeat split; try lia;
    intros t Ht; try discriminate; injection Ht as <-; lia.
Qed.

End AgentMessages.

(** ** More about the queue and the loop *)

Section LoopMore.
Variable env : Env.

Lemma written_app tr1 tr2 : written (tr1 ++ tr2) = written tr1 ++ written tr2.
Proof. apply omap_app. Qed.

Lemma sorted_snoc {A} (R : A -> A -> Prop) (l : list A) (y : A) :
  StronglySorted R l -> Forall (fun x => R x y) l -> StronglySorted R (l ++ [y]).
Proof.
  induction 1 as [|x l Hl IH Hx]; intros Hy; cbn.
  - repeat constructor.
  - inversion Hy; subst. constructor; [apply IH; assumption|].
    apply Forall_app. split; [assumption | repeat constructor; assumption].
Qed.

(** The results written so far are in the order of their stamps, and none
    is stamped later than the clock's next reading. *)
Lemma in_order_step ev s :
  monotone (now env) ->
  StronglySorted (fun r1 r2 => (last_stamp r1 <= created_at r2)%Z)
    (written (trace s)) /\
  Forall (fun r => (last_stamp r <= now env (clock_reads s))%Z)
    (written (trace s)) ->
  StronglySorted (fun r1 r2 => (last_stamp r1 <= created_at r2)%Z)
    (written (trace (step env ev s))) /\
  Forall (fun r => (last_stamp r <= now env (clock_reads (step env ev s)))%Z)
    (written (trace (step env ev s))).
Proof.
  intros Hmono [Hs Hb].
  assert (Hkeep : forall tr, written tr = [] ->
    StronglySorted (fun r1 r2 => (last_stamp r1 <= created_at r2)%Z)
      (written (trace s ++ tr)) /\
    Forall (fun r => (last_stamp r <= now env (clock_reads s))%Z)
      (written (trace s ++ tr))).
  { intros tr Htr. rewrite written_app, Htr, app_nil_r. auto. }
  destruct ev as [name is_dir text|name| |].
  - step_unfold. destruct is_dir; [auto|].
    destruct (matches_task_pattern name); [|auto].
    fields. rewrite <- app_assoc. apply Hkeep. reflexivity.
  - cbn. auto.
  - step_unfold. destruct (scheduled s) as [|t rest]; [auto|].
    step_unfold. save_cases env; rewrite <- ?app_assoc; apply Hkeep; reflexivity.
  - step_unfold. destruct (pc s) as [| |t| | |e] eqn:Hp.
    + fields. apply Hkeep. reflexivity.
    + destruct (queue s) as [|t rest]; fields; [auto|].
      step_unfold.
      save_cases env; rewrite <- ?app_assoc; apply Hkeep; reflexivity.
    + step_unfold. unfold task_done.
      destruct (tasks s !! t) as [text|].
      2:{ save_cases env; rewrite <- ?app_assoc; apply Hkeep; reflexivity. }
      assert (Hnew :
        (created_at (final_result env t text s) = now env (clock_reads s)) /\
        clock_reads s <= clock_reads (final_state env t text s) /\
        forall k, clock_reads (final_state env t text s) <= k ->
          (last_stamp (final_result env t text s) <= now env k)%Z).
      { unfold final_state, final_result, try_exception, loop_result, loop_reads,
          last_stamp.
        cbn [clock_reads].
        destruct (ending _ _ _);
          try destruct (open_result_file env (agent_calls s));
          cbn; (split; [reflexivity|]); (split; [lia|]); intros k Hk;
          apply Hmono; lia. }
      destruct Hnew as (Hc & Hle & Hl).
      assert (Hold : forall k, clock_reads s <= k ->
        Forall (fun r => (last_stamp r <= now env k)%Z) (written (trace s))).
      { intros k Hk. eapply Forall_impl; [exact Hb|].
        intros r Hr. cbn in Hr. pose proof (Hmono _ _ Hk). lia. }
      assert (Hgoal : forall tr k, written tr = [] ->
        clock_reads (final_state env t text s) <= k ->
        StronglySorted (fun r1 r2 => (last_stamp r1 <= created_at r2)%Z)
          (written (((trace s ++ [Query (TaskExecutor.make_prompt text)]) ++
                     [WriteResult (stem t) (final_result env t text s)]) ++ tr)) /\
        Forall (fun r => (last_stamp r <= now env k)%Z)
          (written (((trace s ++ [Query (TaskExecutor.make_prompt text)]) ++
                     [WriteResult (stem t) (final_result env t text s)]) ++ tr))).
      { intros tr k Htr Hk. rewrite !written_app, Htr, app_nil_r.
        change (written [Query _]) with (@nil TaskResult).
        change (written [WriteResult _ ?r]) with [r].
        rewrite app_nil_r. split.
        - apply sorted_snoc; [exact Hs|]. rewrite Hc. exact Hb.
        - apply Forall_app. split; [apply Hold; lia|].
          repeat constructor. apply Hl, Hk. }
      save_cases env; fields; rewrite <- ?app_assoc;
        repeat rewrite (app_assoc (trace s ++ _ ++ _));
        rewrite ?app_assoc; rewrite <- ?(app_assoc _ [Log _]);
        apply Hgoal; first [reflexivity | apply Nat.le_refl].
    + fields. auto.
    + auto.
    + auto.
Qed.

Lemma in_order_run evs s :
  monotone (now env) ->
  StronglySorted (fun r1 r2 => (last_stamp r1 <= created_at r2)%Z)
    (written (trace s)) /\
  Forall (fun r => (last_stamp r <= now env (clock_reads s))%Z)
    (written (trace s)) ->
  StronglySorted (fun r1 r2 => (last_stamp r1 <= created_at r2)%Z)
    (written (trace (run env evs s))).
Proof.
  intros Hmono. revert s.
  induction evs as [|ev evs IH]; intros s H; [apply H|].
  apply IH, in_order_step; assumption.
Qed.

(** X10: with a clock that never goes back, the results a run writes are
    in the order of their stamps: a result is created no earlier than the
    last stamp ([completed_at], or [started_at] when that is unset) of
    every result written before it. *)
Theorem results_are_written_in_time_order evs tasks0 results0 state_file0 :
  monotone (now env) ->
  StronglySorted (fun r1 r2 => (last_stamp r1 <= created_at r2)%Z)
    (written (trace (run env evs (initial tasks0 results0 state_file0)))).
Proof.
  intros Hmono. apply in_order_run; [exact Hmono|].
  split; constructor.
Qed.

(** X11: a [put] whose state write fails still enqueues its task: whether
    or not the state file can be opened, the task is at the tail of the
    queue afterwards, logged as queued, and the processor, the flags and
    the results are untouched. *)
Theorem put_enqueues_even_if_the_state_write_fails task_file rest s :
  scheduled s = task_file :: rest ->
  let s' := step env RunScheduled s in
  queue s' = queue s ++ [task_file] /\
  scheduled s' = rest /\
  pc s' = pc s /\ running s' = running s /\
  current_task s' = current_task s /\ is_processing s' = is_processing s /\
  results s' = results s /\
  Log (TaskQueued task_file (S (length (queue s)))) ∈ trace s'.
Proof.
  intros Hs. step_unfold. rewrite Hs. step_unfold.
  assert (length (queue s ++ [task_file]) = S (length (queue s))) as Hlen
    by (rewrite length_app; cbn; lia).
  save_cases env; rewrite Hlen; repeat split;
    rewrite ?elem_of_app, ?list_elem_of_singleton; auto.
Qed.

End LoopMore.

Section OrderUnderFailures.
Variable env : Env.

Lemma detected_grows ev s :
  detected (trace (step env ev s)) = detected (trace s) ++ enqueued [ev].
Proof.
  destruct ev as [name is_dir text|name| |]; cbn [enqueued omap].
  - step_unfold. destruct is_dir; cbn; [rewrite app_nil_r; reflexivity|].
    destruct (matches_task_pattern name); cbn; [|rewrite app_nil_r; reflexivity].
    rewrite !detected_app. cbn. rewrite app_nil_r. reflexivity.
  - cbn. rewrite app_nil_r. reflexivity.
  - step_unfold. cbn. rewrite app_nil_r.
    destruct (scheduled s) as [|t rest]; [reflexivity|].
    step_unfold. save_cases env; rewrite !detected_app; cbn;
      rewrite !app_nil_r; reflexivity.
  - step_unfold. cbn. rewrite app_nil_r.
    destruct (pc s) as [| |t| | |e].
    + cbn. rewrite detected_app. cbn. rewrite app_nil_r. reflexivity.
    + step_unfold. destruct (queue s) as [|t rest]; [reflexivity|].
      step_unfold. save_cases env; rewrite !detected_app; cbn;
        rewrite !app_nil_r; reflexivity.
    + step_unfold. unfold task_done.
      destruct (tasks s !! t) as [text|]; save_cases env;
        rewrite !detected_app; cbn; rewrite !app_nil_r; reflexivity.
    + reflexivity.
    + reflexivity.
    + reflexivity.
Qed.

Ltac sublist_tac :=
  repeat match goal with
         | H : scheduled _ = _ |- _ => rewrite H
         | H : queue _ = _ |- _ => rewrite H
         | H : pc _ = _ |- _ => rewrite H
         end;
  rewrite ?handled_app; cbn [handled omap]; cbn;
  rewrite ?app_nil_r, <- ?app_assoc; cbn [app];
  repeat first
    [ reflexivity
    | apply sublist_app; [reflexivity|]
    | apply sublist_cons; reflexivity ].

(** A step loses tasks at most: what is handled and waiting after it is
    part of what was handled and waiting before, followed by what the step
    enqueues. *)
Lemma kept_in_order_step ev s :
  handled (trace (step env ev s)) ++ waiting (step env ev s)
  `sublist_of` (handled (trace s) ++ waiting s) ++ enqueued [ev].
Proof.
  unfold waiting. destruct ev as [name is_dir text|name| |]; cbn [enqueued omap].
  - step_unfold. destruct is_dir; [sublist_tac|].
    destruct (matches_task_pattern name) eqn:Hm; fields;
      cbn; rewrite ?Hm; sublist_tac.
  - sublist_tac.
  - step_unfold. destruct (scheduled s) as [|t rest] eqn:Hs; [sublist_tac|].
    step_unfold. save_cases env; sublist_tac.
  - step_unfold. destruct (pc s) as [| |t| | |e] eqn:Hp.
    + fields. destruct (running s); sublist_tac.
    + destruct (queue s) as [|t rest] eqn:Hq; fields.
      { rewrite ?Hq. destruct (running s); sublist_tac. }
      step_unfold. save_cases env; try destruct (running s); sublist_tac.
    + step_unfold. unfold task_done.
      destruct (tasks s !! t) as [text|]; save_cases env;
        try destruct (running s); sublist_tac.
    + fields. destruct (running s); sublist_tac.
    + sublist_tac.
    + sublist_tac.
Qed.

Lemma kept_in_order_run evs s :
  handled (trace s) ++ waiting s `sublist_of` detected (trace s) ->
  handled (trace (run env evs s)) ++ waiting (run env evs s)
  `sublist_of` detected (trace s) ++ enqueued evs.
Proof.
  revert s. induction evs as [|ev evs IH]; intros s Inv; cbn [run fold_left].
  - cbn. rewrite app_nil_r. exact Inv.
  - change (fold_left _ evs ?x) with (run env evs x).
    etransitivity; [apply IH|].
    + rewrite detected_grows. etransitivity; [apply kept_in_order_step|].
      apply sublist_app; [exact Inv | reflexivity].
    + rewrite detected_grows, <- app_assoc.
      change (ev :: evs) with ([ev] ++ evs). rewrite enqueued_app. reflexivity.
Qed.

(** X12: even when writes of the state file fail, no task is executed out
    of turn or twice: the tasks the executor has been given are, in this
    order, part of the enqueue operations (failures can only drop tasks). *)
Theorem handled_tasks_keep_the_enqueue_order evs tasks0 results0 state_file0 :
  handled (trace (run env evs (initial tasks0 results0 state_file0)))
  `sublist_of` enqueued evs.
Proof.
  etransitivity; [apply sublist_inserts_r; reflexivity|].
  apply (kept_in_order_run evs (initial tasks0 results0 state_file0)).
  reflexivity.
Qed.

End OrderUnderFailures.

(** ** The queue viewer and the state file *)

Section Viewer.
Variable env : Env.

(** X13: on the state file of a daemon that started without one, the queue
    viewer prints either "not available" or exactly two lines, the queue
    size and the task being processed; it never prints a list of queued
    tasks, because the daemon never writes one. *)
Theorem show_queue_never_lists_queued_tasks evs tasks0 results0 :
  let s := run env evs (initial tasks0 results0 None) in
  Cli.show_queue s = ["Queue state not available (monitor may not be running)"] \/
  exists state,
    state_file s = Some state /\
    Cli.show_queue s =
      ["Queue size: " +:+ pretty (QueueState.queue_size state);
       "Processing: " +:+
         match QueueState.current_task state with
         | Some task => task
         | None => "None"
         end].
Proof.
  intros s.
  destruct (lists_no_task_run env evs (initial tasks0 results0 None)) as [_ H].
  { split; [constructor | exact I]. }
  fold s in H. unfold Cli.show_queue.
  destruct (state_file s) as [state|]; [right | left; reflexivity].
  exists state. split; [reflexivity|]. rewrite H. reflexivity.
Qed.

Hypothesis writable : forall k, open_state_file env k = None.

Lemma state_file_current_step ev s :
  state_file s = Some (snapshot s) \/
    (state_file s = None /\ queue s = [] /\
     current_task s = None /\ is_processing s = false) ->
  state_file (step env ev s) = Some (snapshot (step env ev s)) \/
    (state_file (step env ev s) = None /\ queue (step env ev s) = [] /\
     current_task (step env ev s) = None /\ is_processing (step env ev s) = false).
Proof.
  intros Inv. destruct ev as [name is_dir text|name| |].
  - step_unfold. destruct is_dir; [exact Inv|].
    destruct (matches_task_pattern name); exact Inv.
  - exact Inv.
  - step_unfold. destruct (scheduled s) as [|t rest]; [exact Inv|].
    step_unfold. rewrite save_state_eq, writable. left. reflexivity.
  - step_unfold. destruct (pc s) as [| |t| | |e] eqn:Hp.
    + destruct (running s); exact Inv.
    + destruct (queue s) as [|t rest] eqn:Hq in |- *; fields.
      { unfold snapshot in *. destruct (running s); fields; exact Inv. }
      step_unfold. rewrite save_state_eq, writable. fields.
      rewrite save_state_eq, writable. left. reflexivity.
    + step_unfold. rewrite save_state_eq, writable. left. reflexivity.
    + destruct (running s); exact Inv.
    + exact Inv.
    + exact Inv.
Qed.

(** X14: as long as the state file can be written, it is current at every
    await of the daemon: it holds the queue's length and the task being
    processed as they are in memory; and as long as the file does not
    exist, nothing has been queued. *)
Theorem state_file_is_current evs tasks0 results0 :
  let s := run env evs (initial tasks0 results0 None) in
  state_file s =
    Some {| QueueState.queue_size := length (queue s);
            QueueState.current_task := current_task s;
            QueueState.is_processing := is_processing s;
            QueueState.queued_tasks := [] |} \/
  (state_file s = None /\ queue s = [] /\
   current_task s = None /\ is_processing s = false).
Proof.
  cbn zeta.
  assert (forall s0 : State,
    (state_file s0 = Some (snapshot s0) \/
     (state_file s0 = None /\ queue s0 = [] /\
      current_task s0 = None /\ is_processing s0 = false)) ->
    state_file (run env evs s0) = Some (snapshot (run env evs s0)) \/
    (state_file (run env evs s0) = None /\ queue (run env evs s0) = [] /\
     current_task (run env evs s0) = None /\ is_processing (run env evs s0) = false))
    as Hrun.
  { induction evs as [|ev evs IH]; intros s0 H; [exact H|].
    apply IH, state_file_current_step, H. }
  apply (Hrun (initial tasks0 results0 None)).
  right. repeat split.
Qed.

End Viewer.

(** ** One turn of the loop, an idle loop, a stopped loop *)

Section Turns.
Variable env : Env.


(** X16: an idle daemon is silent.  Resuming a processor that waits on an
    empty queue (the one-second timeout of [wait_for]) changes nothing: no
    log record, no write of the state file. *)
Theorem polling_an_empty_queue_changes_nothing n s :
  running s = true ->
  pc s = AtWaitFor ->
  queue s = [] ->
  run env (replicate n Resume) s = s.
Proof.
  intros Hrun Hpc Hq. induction n as [|n IH]; [reflexivity|].
  cbn [replicate run fold_left].
  assert (step env Resume s = s) as ->; [|exact IH].
  step_unfold. rewrite Hpc. step_unfold. rewrite Hq. fields. rewrite Hrun.
  destruct s. cbn in *. subst. reflexivity.
Qed.

(** X17: the loop test.  A processor that is resumed from its sleep when
    [running] is false leaves the loop, and a processor that has left the
    loop executes nothing any more: whatever happens later, no further task
    is handled and no result is written; tasks still queued stay queued. *)
Theorem a_stopped_processor_executes_nothing evs s :
  running s = false ->
  pc s = AtSleep ->
  pc (step env Resume s) = Finished /\
  pc (run env (Resume :: evs) s) = Finished /\
  handled (trace (run env (Resume :: evs) s)) = handled (trace s) /\
  results (run env (Resume :: evs) s) = results s /\
  (exists more, queue (run env (Resume :: evs) s) = queue s ++ more).
Proof.
  intros Hrun Hpc.
  assert (step env Resume s = with_pc Finished s) as H1.
  { step_unfold. rewrite Hpc. fields. rewrite Hrun. reflexivity. }
  split; [rewrite H1; reflexivity|].
  cbn [run fold_left]. rewrite H1.
  change (fold_left _ evs ?x) with (run env evs x).
  assert (forall s0, pc s0 = Finished ->
    pc (run env evs s0) = Finished /\
    handled (trace (run env evs s0)) = handled (trace s0) /\
    results (run env evs s0) = results s0 /\
    exists more, queue (run env evs s0) = queue s0 ++ more) as Hfin.
  { induction evs as [|ev evs IH]; intros s0 H0.
    - repeat split; auto. exists []. rewrite app_nil_r. reflexivity.
    - cbn [run fold_left]. change (fold_left _ evs ?x) with (run env evs x).
      assert (pc (step env ev s0) = Finished /\
              handled (trace (step env ev s0)) = handled (trace s0) /\
              results (step env ev s0) = results s0 /\
              exists more, queue (step env ev s0) = queue s0 ++ more)
        as (E1 & E2 & E3 & more1 & E4).
      { destruct ev as [name is_dir text|name| |].
        - step_unfold. destruct is_dir.
          { repeat split; auto. exists []. rewrite app_nil_r. reflexivity. }
          destruct (matches_task_pattern name); fields;
            rewrite ?handled_app; cbn; rewrite ?app_nil_r; repeat split; auto;
            exists []; rewrite app_nil_r; reflexivity.
        - cbn. repeat split; auto. exists []. rewrite app_nil_r. reflexivity.
        - step_unfold. destruct (scheduled s0) as [|t rest].
          { repeat split; auto. exists []. rewrite app_nil_r. reflexivity. }
          step_unfold. save_cases env; rewrite ?handled_app; cbn;
            rewrite ?app_nil_r; repeat split; auto; exists [t]; reflexivity.
        - step_unfold. rewrite H0. repeat split; auto.
          exists []. rewrite app_nil_r. reflexivity. }
      destruct (IH _ E1) as (F1 & F2 & F3 & more2 & F4).
      rewrite F1, F2, F3, F4, E2, E3, E4. repeat split.
      exists (more1 ++ more2). rewrite app_assoc. reflexivity. }
  apply (Hfin (with_pc Finished s)). reflexivity.
Qed.

End Turns.

(** X18: the watcher's handler.  For a created file whose name is
    ["task-"], anything, [".md"], [on_created] hands exactly that name to
    the event loop and logs the two records; for a directory or any other
    name it does nothing.  In no case does it touch the queue, the state
    file or the results itself. *)
Theorem on_created_hands_over_task_files_only name is_directory s :
  let s' := snd (TaskFileHandler.on_created name is_directory s) in
  (is_directory = false /\ (exists middle, name = "task-" +:+ middle +:+ ".md") ->
   scheduled s' = scheduled s ++ [name] /\
   trace s' = trace s ++ [Log (NewTaskDetected name);
                          Log (TaskQueuedSuccessfully name)]) /\
  (~ (is_directory = false /\ exists middle, name = "task-" +:+ middle +:+ ".md") ->
   s' = s) /\
  queue s' = queue s /\ state_file s' = state_file s /\ results s' = results s /\
  pc s' = pc s.
Proof.
  cbn zeta. unfold TaskFileHandler.on_created. munfold.
  destruct is_directory.
  { split; [intros [Hd _]; discriminate Hd|]. repeat split. }
  destruct (matches_task_pattern name) eqn:Hm.
  - fields. split.
    { intros _. split; [reflexivity|]. rewrite <- app_assoc. reflexivity. }
    split; [|repeat split].
    intros Hnot. exfalso. apply Hnot. split; [reflexivity|].
    apply matches_task_pattern_spec, Hm.
  - split.
    { intros [_ Hmid]. apply matches_task_pattern_spec in Hmid. congruence. }
    repeat split.
Qed.

(** ** The further properties at sample inputs *)

(** X2 at two task files. *)
Lemma stem_of_task_file_witness :
  matches_task_pattern "task-1.md" = true /\
  matches_task_pattern "task-2.md" = true /\
  stem "task-1.md" +:+ ".md" = "task-1.md" /\
  (stem "task-1.md" = stem "task-2.md" -> "task-1.md" = "task-2.md").
Proof.
  split; [reflexivity|]. split; [reflexivity|].
  apply (stem_of_task_file "task-1.md" "task-2.md"); reflexivity.
Defined.

(** X4 at two states that differ in queue and state file only. *)
Lemma execute_task_reads_document_only_witness :
  tasks Sample.one_document !! "task-1.md" = tasks Sample.one_queued !! "task-1.md" /\
  clock_reads Sample.one_document = clock_reads Sample.one_queued /\
  agent_calls Sample.one_document = agent_calls Sample.one_queued /\
  fst (TaskExecutor.execute_task Sample.env_ok "task-1.md" Sample.one_document)
  = fst (TaskExecutor.execute_task Sample.env_ok "task-1.md" Sample.one_queued).
Proof.
  split; [vm_compute; reflexivity|].
  split; [vm_compute; reflexivity|].
  split; [vm_compute; reflexivity|].
  apply (execute_task_reads_document_only Sample.env_ok "task-1.md"
           Sample.one_document Sample.one_queued); vm_compute; reflexivity.
Defined.

(** X5 at a task executed twice in a row. *)
Lemma result_is_overwritten_witness :
  TaskExecutor.execute_task Sample.env_ok "task-1.md" Sample.one_document
  = (Return (final_result Sample.env_ok "task-1.md" "Summarise the survey."
               Sample.one_document),
     final_state Sample.env_ok "task-1.md" "Summarise the survey."
       Sample.one_document) /\
  TaskExecutor.execute_task Sample.env_ok "task-1.md"
    (final_state Sample.env_ok "task-1.md" "Summarise the survey."
       Sample.one_document)
  = (Return (final_result Sample.env_ok "task-1.md" "Summarise the survey."
               (final_state Sample.env_ok "task-1.md" "Summarise the survey."
                  Sample.one_document)),
     final_state Sample.env_ok "task-1.md" "Summarise the survey."
       (final_state Sample.env_ok "task-1.md" "Summarise the survey."
          Sample.one_document)) /\
  (let s := Sample.one_document in
   let r1 := final_result Sample.env_ok "task-1.md" "Summarise the survey." s in
   let s1 := final_state Sample.env_ok "task-1.md" "Summarise the survey." s in
   let r2 := final_result Sample.env_ok "task-1.md" "Summarise the survey." s1 in
   let s2 := final_state Sample.env_ok "task-1.md" "Summarise the survey." s1 in
   results s1 !! stem "task-1.md" = Some r1 /\
   results s2 !! stem "task-1.md" = Some r2 /\
   dom (results s2) = dom (results s1) /\
   (forall id, id <> stem "task-1.md" -> results s2 !! id = results s !! id)).
Proof.
  split; [vm_compute; reflexivity|].
  split; [vm_compute; reflexivity|].
  apply (result_is_overwritten Sample.env_ok "task-1.md" Sample.one_document);
    vm_compute; reflexivity.
Defined.

(** X6 at an agent run that reports an error. *)
Lemma failure_and_success_are_never_silent_witness :
  TaskExecutor.execute_task (Sample.env_of Sample.erroring None) "task-1.md"
    Sample.one_document
  = (Return (final_result (Sample.env_of Sample.erroring None) "task-1.md"
               "Summarise the survey." Sample.one_document),
     final_state (Sample.env_of Sample.erroring None) "task-1.md"
       "Summarise the survey." Sample.one_document) /\
  (let r := final_result (Sample.env_of Sample.erroring None) "task-1.md"
              "Summarise the survey." Sample.one_document in
   (status r = FAILED -> exists msg, error r = Some msg /\ msg <> "") /\
   (status r = COMPLETED ->
    exists out, worker_output r = Some out /\ summary out <> "")).
Proof.
  split; [vm_compute; reflexivity|].
  apply (failure_and_success_are_never_silent (Sample.env_of Sample.erroring None)
           "task-1.md" Sample.one_document _
           (final_state (Sample.env_of Sample.erroring None) "task-1.md"
              "Summarise the survey." Sample.one_document)).
  vm_compute; reflexivity.
Defined.

(** X8 at a success event followed by an error event and a raise. *)
Lemma nothing_is_read_after_a_result_event_witness :
  is_result_event (Sample.result_message "success" (Some "done")) = true /\
  TaskExecutor.consume Sample.env_ok
    ([Sample.text_message ["a"]] ++
     Sample.result_message "success" (Some "done")
       :: [Sample.result_message "error" None])
    (Some Sample.disk_full) []
    (created_result Sample.env_ok "task-1.md" Sample.one_document)
    Sample.one_document
  = TaskExecutor.consume Sample.env_ok
      ([Sample.text_message ["a"]] ++ [Sample.result_message "success" (Some "done")])
      None []
      (created_result Sample.env_ok "task-1.md" Sample.one_document)
      Sample.one_document.
Proof.
  split; [reflexivity|].
  apply (nothing_is_read_after_a_result_event Sample.env_ok).
  reflexivity.
Defined.

Lemma sample_clock_monotone : monotone Sample.clock.
Proof. intros i j H. unfold Sample.clock. lia. Defined.

(** X9 at an agent run that succeeds. *)
Lemma stamps_follow_the_clock_witness :
  monotone (now Sample.env_ok) /\
  TaskExecutor.execute_task Sample.env_ok "task-1.md" Sample.one_document
  = (Return (final_result Sample.env_ok "task-1.md" "Summarise the survey."
               Sample.one_document),
     final_state Sample.env_ok "task-1.md" "Summarise the survey."
       Sample.one_document) /\
  (let r := final_result Sample.env_ok "task-1.md" "Summarise the survey."
              Sample.one_document in
   (created_at r <= started_at r)%Z /\
   (forall t, completed_at r = Some t -> (started_at r <= t)%Z) /\
   (0 <= logged_duration r)%Z).
Proof.
  split; [exact sample_clock_monotone|].
  split; [vm_compute; reflexivity|].
  apply (stamps_follow_the_clock Sample.env_ok "task-1.md" Sample.one_document _
           (final_state Sample.env_ok "task-1.md" "Summarise the survey."
              Sample.one_document)).
  - exact sample_clock_monotone.
  - vm_compute; reflexivity.
Defined.

(** X10 at a run that executes two tasks. *)
Lemma results_are_written_in_time_order_witness :
  monotone (now Sample.env_ok) /\
  StronglySorted (fun r1 r2 => (last_stamp r1 <= created_at r2)%Z)
    (written (trace (run Sample.env_ok Sample.two_tasks (initial ∅ ∅ None)))).
Proof.
  split; [exact sample_clock_monotone|].
  apply (results_are_written_in_time_order Sample.env_ok).
  exact sample_clock_monotone.
Defined.

(** X11 at a [put] under a full disk. *)
Lemma put_enqueues_even_if_the_state_write_fails_witness :
  scheduled Sample.one_dropped = "task-1.md" :: [] /\
  (let s' := step Sample.env_disk_full RunScheduled Sample.one_dropped in
   queue s' = queue Sample.one_dropped ++ ["task-1.md"] /\
   scheduled s' = [] /\
   pc s' = pc Sample.one_dropped /\ running s' = running Sample.one_dropped /\
   current_task s' = current_task Sample.one_dropped /\
   is_processing s' = is_processing Sample.one_dropped /\
   results s' = results Sample.one_dropped /\
   Log (TaskQueued "task-1.md" (S (length (queue Sample.one_dropped)))) ∈ trace s').
Proof.
  split; [vm_compute; reflexivity|].
  apply (put_enqueues_even_if_the_state_write_fails Sample.env_disk_full).
  vm_compute; reflexivity.
Defined.

(** X14 at a run that executes two tasks. *)
Lemma state_file_is_current_witness :
  (forall k, open_state_file Sample.env_ok k = None) /\
  (let s := run Sample.env_ok Sample.two_tasks (initial ∅ ∅ None) in
   state_file s =
     Some {| QueueState.queue_size := length (queue s);
             QueueState.current_task := current_task s;
             QueueState.is_processing := is_processing s;
             QueueState.queued_tasks := [] |} \/
   (state_file s = None /\ queue s = [] /\
    current_task s = None /\ is_processing s = false)).
Proof.
  split; [intros k; reflexivity|].
  apply (state_file_is_current Sample.env_ok).
  intros k; reflexivity.
Defined.


(** X16 at five timeouts in a row. *)
Lemma polling_an_empty_queue_changes_nothing_witness :
  running Sample.idle = true /\
  pc Sample.idle = AtWaitFor /\
  queue Sample.idle = [] /\
  run Sample.env_ok (replicate 5 Resume) Sample.idle = Sample.idle.
Proof.
  split; [vm_compute; reflexivity|].
  split; [vm_compute; reflexivity|].
  split; [vm_compute; reflexivity|].
  apply (polling_an_empty_queue_changes_nothing Sample.env_ok 5 Sample.idle);
    vm_compute; reflexivity.
Defined.

(** X17 at a stopping processor that is resumed and then asked to work. *)
Lemma a_stopped_processor_executes_nothing_witness :
  running Sample.stopping = false /\
  pc Sample.stopping = AtSleep /\
  pc (step Sample.env_ok Resume Sample.stopping) = Finished /\
  pc (run Sample.env_ok (Resume :: Sample.one_task) Sample.stopping) = Finished /\
  handled (trace (run Sample.env_ok (Resume :: Sample.one_task) Sample.stopping))
  = handled (trace Sample.stopping) /\
  results (run Sample.env_ok (Resume :: Sample.one_task) Sample.stopping)
  = results Sample.stopping /\
  (exists more,
     queue (run Sample.env_ok (Resume :: Sample.one_task) Sample.stopping)
     = queue Sample.stopping ++ more).
Proof.
  split; [reflexivity|]. split; [reflexivity|].
  apply (a_stopped_processor_executes_nothing Sample.env_ok Sample.one_task
           Sample.stopping); reflexivity.
Defined.
